(** * Outline server manager: the Google Cloud account model

    A shallow embedding of [src/server_manager/web_app/gcp_account.ts]
    (the [GcpAccount] class and [makeInstanceName]) together with the
    properties of its provisioning orchestration.

    - JavaScript strings are [string]; numbers that are integers are [Z].
    - An [async] method is a term of the process type [Proc]: every
      [await this.apiClient.f(...)] is an [Await] node holding the request
      and the continuation that receives the response.
    - The cloud REST client ([gcp_api.RestApiClient]) is not part of the
      embedded file: it is an environment [Env], a state machine that
      answers each request with a response or a rejection.
    - A process that is in flight stands at an [Await] whose request has
      been sent; the event of the node is the arrival of the response.
    - A [while] loop that polls an operation is unrolled by a fuel
      argument; [Spin] marks a loop that is still polling when the fuel
      is used up. *)

From Stdlib Require Import ZArith Lia Ascii String DecimalString.
From stdpp Require Import base option list strings gmap fin_maps.

Local Open Scope string_scope.
Local Open Scope list_scope.
Local Open Scope Z_scope.

(** ** JavaScript string primitives *)

Module Js.

(** Index of the last occurrence of [c] at or after position [i] of
    the whole string, when [s] is its suffix starting at [i]. *)
Fixpoint lastIndexFrom (c : ascii) (i : Z) (s : string) : option Z :=
  match s with
  | EmptyString => None
  | String a rest =>
      match lastIndexFrom c (i + 1) rest with
      | Some j => Some j
      | None => if Ascii.eqb a c then Some i else None
      end
  end.

(** [s.lastIndexOf(c)]: -1 when [c] does not occur. *)
Definition lastIndexOf (c : ascii) (s : string) : Z :=
  match lastIndexFrom c 0 s with
  | Some j => j
  | None => -1
  end.

(** Drops the first [n] characters. *)
Fixpoint drop (n : nat) (s : string) : string :=
  match n, s with
  | O, _ => s
  | S n', String _ rest => drop n' rest
  | S _, EmptyString => EmptyString
  end.

(** [s.substring(start)]: a negative start counts as 0, a start past the
    end gives the empty string. *)
Definition substring (start : Z) (s : string) : string :=
  drop (Z.to_nat start) s.

(** A number inside a template literal: its decimal representation. *)
Definition numberToString (n : Z) : string :=
  NilZero.string_of_int (Z.to_int n).

(** Exceptions that reach the caller of an [async] method. *)
Inductive Error : Type :=
| TypeError (message : string)
| RequestFailed (message : string).

(** Property names every object inherits from [Object.prototype]; the
    [in] operator finds them on an object literal. *)
Definition objectPrototypeKeys : list string :=
  [ "constructor"; "__defineGetter__"; "__defineSetter__";
    "hasOwnProperty"; "__lookupGetter__"; "__lookupSetter__";
    "isPrototypeOf"; "propertyIsEnumerable"; "toString"; "valueOf";
    "__proto__"; "toLocaleString" ].

End Js.

(** ** The [Date] object

    A [Date] is a time value (milliseconds since the epoch, UTC) read
    in a local time zone. The getters follow ECMAScript: the local ones
    shift the time value by the zone adjustment first. *)

Module Date.

Record t : Type := mk {
  timeValue : Z;   (* milliseconds since 1970-01-01T00:00:00Z *)
  localTZA : Z     (* local time zone adjustment, milliseconds *)
}.

Definition msPerSecond : Z := 1000.
Definition msPerMinute : Z := 60000.
Definition msPerHour : Z := 3600000.
Definition msPerDay : Z := 86400000.

Definition Day (tv : Z) : Z := tv / msPerDay.
Definition HourFromTime (tv : Z) : Z := (tv / msPerHour) mod 24.
Definition MinFromTime (tv : Z) : Z := (tv / msPerMinute) mod 60.
Definition SecFromTime (tv : Z) : Z := (tv / msPerSecond) mod 60.

(** Year, month (1..12) and day of the month of a day number counted
    from the epoch, in the proleptic Gregorian calendar. *)
Definition civilFromDays (days : Z) : Z * Z * Z :=
  let z := days + 719468 in
  let era := z / 146097 in
  let doe := z - era * 146097 in
  let yoe := (doe - doe / 1460 + doe / 36524 - doe / 146096) / 365 in
  let doy := doe - (365 * yoe + yoe / 4 - yoe / 100) in
  let mp := (5 * doy + 2) / 153 in
  let d := doy - (153 * mp + 2) / 5 + 1 in
  let m := if mp <? 10 then mp + 3 else mp - 9 in
  let y := yoe + era * 400 + (if m <=? 2 then 1 else 0) in
  (y, m, d).

Definition YearFromTime (tv : Z) : Z := (civilFromDays (Day tv)).1.1.
(** [MonthFromTime] counts from 0 (January) to 11 (December). *)
Definition MonthFromTime (tv : Z) : Z := (civilFromDays (Day tv)).1.2 - 1.
Definition DateFromTime (tv : Z) : Z := (civilFromDays (Day tv)).2.

Definition LocalTime (d : t) : Z := timeValue d + localTZA d.

Definition getFullYear (d : t) : Z := YearFromTime (LocalTime d).
Definition getMonth (d : t) : Z := MonthFromTime (LocalTime d).
Definition getDate (d : t) : Z := DateFromTime (LocalTime d).
Definition getUTCHours (d : t) : Z := HourFromTime (timeValue d).
Definition getUTCMinutes (d : t) : Z := MinFromTime (timeValue d).
Definition getUTCSeconds (d : t) : Z := SecFromTime (timeValue d).

End Date.

(** ** [makeInstanceName] *)

Definition makeInstanceName (now : Date.t) : string :=
  "outline-" +:+ Js.numberToString (Date.getFullYear now)
    +:+ Js.numberToString (Date.getMonth now)
    +:+ Js.numberToString (Date.getDate now)
    +:+ "-" +:+ Js.numberToString (Date.getUTCHours now)
    +:+ Js.numberToString (Date.getUTCMinutes now)
    +:+ Js.numberToString (Date.getUTCSeconds now).

(** ** Values exchanged with the cloud API

    The declarations of [gcp_api] and [model/gcp] are outside the
    embedded file; the records below carry the fields the account model
    reads or writes. An optional field ([x?.f], [x ?? d]) is an [option]. *)

(** The [error] member of a long-running operation. *)
Record OperationError : Type := {
  errors : option (list string)
}.

(** The provider's handle of an asynchronous action. *)
Record Operation : Type := {
  op_name : string;
  op_done : bool;
  op_targetId : string;
  op_error : option OperationError
}.

Record Zone : Type := {
  zone_name : string;
  zone_region : string;
  zone_status : string
}.

Record ListZonesResponse : Type := {
  zones_items : option (list Zone)
}.

Record ProjectBillingInfo : Type := {
  billingEnabled : bool
}.

Record ServiceConfig : Type := {
  config_name : string
}.

(** A service of the service-usage API. *)
Record Service : Type := {
  service_config : option ServiceConfig
}.

Record ListEnabledServicesResponse : Type := {
  services : option (list Service)
}.

Record Firewall : Type := {
  firewall_name : string
}.

Record ListFirewallsResponse : Type := {
  firewalls_items : option (list Firewall)
}.

Record AccessConfig : Type := {
  natIP : option string
}.

Record NetworkInterface : Type := {
  accessConfigs : list AccessConfig
}.

Record Instance : Type := {
  instance_name : string;
  instance_description : string;
  networkInterfaces : list NetworkInterface
}.

Record InstanceLocator : Type := {
  projectId : string;
  zoneId : string;
  instanceId : string
}.

Record Project : Type := {
  project_id : string;
  project_name : string
}.

(** Request bodies, as the object literals of the source build them. *)

Record CreateProjectData : Type := {
  cp_projectId : string;
  cp_name : string;
  cp_labels : list (string * string)
}.

Record UpdateProjectBillingInfoData : Type := {
  bi_name : string;
  bi_projectId : string;
  bi_billingAccountName : string
}.

Record EnableServicesData : Type := {
  serviceIds : list string
}.

Record CreateFirewallData : Type := {
  fw_name : string;
  fw_direction : string;
  fw_priority : Z;
  fw_targetTags : list string;
  fw_allowed : list string;        (* the IPProtocol of each entry *)
  fw_sourceRanges : list string
}.

Record DiskData : Type := {
  disk_boot : bool;
  disk_sourceImage : string        (* initializeParams.sourceImage *)
}.

Record NetworkInterfaceData : Type := {
  nic_network : string;
  nic_accessConfigs : list unit    (* [{}]: one empty access config *)
}.

Record CreateInstanceData : Type := {
  ci_name : string;
  ci_description : string;
  ci_machineType : string;
  ci_disks : list DiskData;
  ci_networkInterfaces : list NetworkInterfaceData;
  ci_labels : list (string * string);
  ci_tags : list string;                     (* tags.items *)
  ci_metadata : list (string * string)       (* metadata.items: key, value *)
}.

Record CreateStaticIpData : Type := {
  ip_name : string;
  ip_description : string;
  ip_address : option string
}.

(** ** The REST client as a signature of requests *)

Inductive ApiCall : Type :=
| listZones (projectId : string)
| createProject_ (projectId : string) (data : CreateProjectData)
| resourceManagerOperationGet (name : string)
| getProjectBillingInfo (projectId : string)
| updateProjectBillingInfo (projectId : string)
    (data : UpdateProjectBillingInfoData)
| listEnabledServices (projectId : string)
| enableServices (projectId : string) (data : EnableServicesData)
| serviceUsageOperationGet (name : string)
| listFirewalls (projectId : string) (name : string)
| createFirewall (projectId : string) (data : CreateFirewallData)
| createInstance_ (projectId : string) (zoneId : string)
    (data : CreateInstanceData)
| computeEngineOperationZoneWait (projectId : string) (zoneId : string)
    (operationId : string)
| getInstance (locator : InstanceLocator)
| createStaticIp (projectId : string) (regionId : string)
    (data : CreateStaticIpData).

(** What each request resolves to. *)
Definition Reply (c : ApiCall) : Type :=
  match c with
  | listZones _ => ListZonesResponse
  | getProjectBillingInfo _ => ProjectBillingInfo
  | updateProjectBillingInfo _ _ => ProjectBillingInfo
  | listEnabledServices _ => ListEnabledServicesResponse
  | listFirewalls _ _ => option ListFirewallsResponse
  | getInstance _ => Instance
  | createProject_ _ _ | resourceManagerOperationGet _
  | enableServices _ _ | serviceUsageOperationGet _
  | createFirewall _ _ | createInstance_ _ _ _
  | computeEngineOperationZoneWait _ _ _ | createStaticIp _ _ _ =>
      Operation
  end.

(** Requests that create or change a cloud resource. *)
Definition isMutation (c : ApiCall) : bool :=
  match c with
  | createProject_ _ _ | updateProjectBillingInfo _ _ | enableServices _ _
  | createFirewall _ _ | createInstance_ _ _ _ | createStaticIp _ _ _ => true
  | _ => false
  end.

Definition isUpdateProjectBillingInfo (c : ApiCall) : bool :=
  match c with updateProjectBillingInfo _ _ => true | _ => false end.

Definition isEnableServices (c : ApiCall) : bool :=
  match c with enableServices _ _ => true | _ => false end.

Definition isCreateFirewall (c : ApiCall) : bool :=
  match c with createFirewall _ _ => true | _ => false end.

Definition isCreateStaticIp (c : ApiCall) : bool :=
  match c with createStaticIp _ _ _ => true | _ => false end.

(** ** Asynchronous processes *)

Inductive Proc (A : Type) : Type :=
| Ret (a : A)                                   (* return a *)
| Throw (e : Js.Error)                          (* throw e *)
| Await (c : ApiCall) (k : Reply c -> Proc A)   (* await apiClient.c *)
| Sleep (ms : Z) (k : Proc A)                   (* await sleep(ms) *)
| NewDate (k : Date.t -> Proc A)                (* new Date() *)
| Spin.                                         (* loop fuel used up *)

Arguments Ret {A} a.
Arguments Throw {A} e.
Arguments Await {A} c k.
Arguments Sleep {A} ms k.
Arguments NewDate {A} k.
Arguments Spin {A}.

Fixpoint bind {A B : Type} (p : Proc A) (f : A -> Proc B) : Proc B :=
  match p with
  | Ret a => f a
  | Throw e => Throw e
  | Await c k => Await c (fun r => bind (k r) f)
  | Sleep ms k => Sleep ms (bind k f)
  | NewDate k => NewDate (fun d => bind (k d) f)
  | Spin => Spin
  end.

Declare Scope proc_scope.
Delimit Scope proc_scope with proc.
Notation "x <- p ;; q" := (bind p (fun x => q))
  (at level 100, p at next level, right associativity) : proc_scope.
Notation "p ;;; q" := (bind p (fun _ => q))
  (at level 100, right associativity) : proc_scope.

(** [await apiClient.c(...)] as a process returning the response. *)
Definition call (c : ApiCall) : Proc (Reply c) := Await c Ret.

(** [let op = null; while (!op?.done) { op = body }]: the loop variable
    starts as [None]; the result is its value when the loop is left. *)
Fixpoint whileNotDone (fuel : nat) (body : Proc Operation)
    (op : option Operation) : Proc (option Operation) :=
  if from_option op_done false op then Ret op
  else match fuel with
       | O => Spin
       | S fuel' => bind body (fun op' => whileNotDone fuel' body (Some op'))
       end.

(** [Promise.all([first, second]).then()]: two processes in flight. *)
Record PromiseAll : Type := {
  first : Proc unit;
  second : Proc unit
}.

(** ** The environment and the execution of a process *)

Record Env (St : Type) : Type := {
  request : forall c : ApiCall, St -> (Js.Error + Reply c) * St;
  elapse : Z -> St -> St;
  clock : St -> Date.t
}.

Arguments request {St} _ c _.
Arguments elapse {St} _ _ _.
Arguments clock {St} _ _.

(** What the caller and the cloud can observe of a run. *)
Inductive Event : Type :=
| Called (c : ApiCall) (r : Js.Error + Reply c)
| Slept (ms : Z).

Inductive Outcome (A : Type) : Type :=
| Returned (a : A)
| Raised (e : Js.Error)
| Polling.

Arguments Returned {A} a.
Arguments Raised {A} e.
Arguments Polling {A}.

(** The request of an event, when it is one. *)
Definition eventCall (ev : Event) : option ApiCall :=
  match ev with
  | Called c _ => Some c
  | Slept _ => None
  end.

(** Number of requests of a kind in a trace. *)
Definition countCalls (kind : ApiCall -> bool) (trace : list Event) : nat :=
  length (filter (fun ev => from_option kind false (eventCall ev) = true) trace).

Section Execution.

Context {St : Type} (env : Env St).

(** Runs a process to its end: a rejected request is thrown at the
    [await], and nothing in the account model catches it. *)
Fixpoint run {A : Type} (p : Proc A) (s : St)
    : Outcome A * St * list Event :=
  match p with
  | Ret a => (Returned a, s, [])
  | Throw e => (Raised e, s, [])
  | Spin => (Polling, s, [])
  | Await c k =>
      let '(r, s1) := request env c s in
      match r with
      | inl e => (Raised e, s1, [Called c r])
      | inr v =>
          let '(o, s2, t) := run (k v) s1 in (o, s2, Called c r :: t)
      end
  | Sleep ms k =>
      let '(o, s2, t) := run k (elapse env ms s) in (o, s2, Slept ms :: t)
  | NewDate k => run (k (clock env s)) s
  end.

(** One event of a process that is in flight. *)
Definition step {A : Type} (p : Proc A) (s : St)
    : Proc A * St * list Event :=
  match p with
  | Await c k =>
      let '(r, s1) := request env c s in
      (match r with inl e => Throw e | inr v => k v end, s1, [Called c r])
  | Sleep ms k => (k, elapse env ms s, [Slept ms])
  | NewDate k => (k (clock env s), s, [])
  | _ => (p, s, [])
  end.

Definition finished {A : Type} (p : Proc A) : bool :=
  match p with
  | Ret _ | Throw _ => true
  | _ => false
  end.

(** The state of a promise. *)
Inductive PromiseState : Type :=
| Pending
| Fulfilled
| Rejected (e : Js.Error).

(** The promise [Promise.all([first, second]).then()] under a
    schedule: each entry says whose next response arrives ([true] for
    the first process), and a process that has finished leaves the turn
    to the other. The promise is rejected by the first process that
    throws and fulfilled when both have returned. *)
Fixpoint settle (schedule : list bool) (p q : Proc unit) (s : St)
    : PromiseState * St * list Event :=
  match p, q with
  | Throw e, _ => (Rejected e, s, [])
  | _, Throw e => (Rejected e, s, [])
  | Ret _, Ret _ => (Fulfilled, s, [])
  | _, _ =>
      match schedule with
      | [] => (Pending, s, [])
      | turn :: rest =>
          if (turn && negb (finished p)) || finished q then
            let '(p', s1, t1) := step p s in
            let '(o, s2, t2) := settle rest p' q s1 in (o, s2, t1 ++ t2)
          else
            let '(q', s1, t1) := step q s in
            let '(o, s2, t2) := settle rest p q' s1 in (o, s2, t1 ++ t2)
      end
  end.

End Execution.

(** ** The account model: [class GcpAccount] *)

Definition OUTLINE_PROJECT_NAME : string := "Outline servers".
Definition OUTLINE_FIREWALL_NAME : string := "outline".
Definition OUTLINE_FIREWALL_TAG : string := "outline".
Definition MACHINE_SIZE : string := "f1-micro".
Definition REQUIRED_GCP_SERVICES : list string := ["compute.googleapis.com"].

(** [gcp.ZoneMap]: an object from region ids to lists of zone ids. *)
Abbreviation ZoneMap := (gmap string (list string)).

(** [key in obj] for an object literal: own or inherited property. *)
Definition hasProperty (key : string) (obj : ZoneMap) : bool :=
  bool_decide (is_Some (obj !! key))
  || bool_decide (key ∈ Js.objectPrototypeKeys).

Record GcpAccount : Type := {
  id : string;
  refreshToken : string
}.

(** [new GcpServer(id, locator, name, completion, apiClient)]. *)
Record GcpServer : Type := {
  server_accountId : string;
  server_locator : InstanceLocator;
  server_name : string;
  server_completion : PromiseAll
}.

(** The object [createInstance] resolves to. *)
Record CreatedInstance : Type := {
  created_instanceId : string;
  created_name : string;
  created_completion : PromiseAll
}.

Section Account.

(** The install script of [install_scripts/gcp_install_script] and the
    [getRegionId] of [model/gcp] are imported by the source. *)
Variable SCRIPT : string.
Variable getRegionId : string -> string.

Local Open Scope proc_scope.

(** The body of the callback of [zones.map] in [listLocations]; pushing
    to a property that is not an array is a [TypeError]. *)
Definition listLocations_zone (result : ZoneMap) (zone : Zone)
    : Js.Error + ZoneMap :=
  let region :=
    Js.substring (Js.lastIndexOf "/" (zone_region zone) + 1)
      (zone_region zone) in
  let result1 :=
    if negb (hasProperty region result) then <[region := []]> result
    else result in
  if String.eqb (zone_status zone) "UP" then
    match result1 !! region with
    | Some names => inr (<[region := names ++ [zone_name zone]]> result1)
    | None => inl (Js.TypeError "result[region].push is not a function")
    end
  else inr result1.

Fixpoint listLocations_zones (zones : list Zone) (result : ZoneMap)
    : Js.Error + ZoneMap :=
  match zones with
  | [] => inr result
  | zone :: rest =>
      match listLocations_zone result zone with
      | inl e => inl e
      | inr result' => listLocations_zones rest result'
      end
  end.

Definition listLocations (projectId : string) : Proc ZoneMap :=
  listZonesResponse <- call (listZones projectId) ;;
  let zones := default [] (zones_items listZonesResponse) in
  match listLocations_zones zones ∅ with
  | inl e => Throw e
  | inr result => Ret result
  end.

(** The request bodies are the object literals of the methods; each
    keeps the name of the constant that holds it. *)

Definition updateProjectBillingInfoData (projectId billingAccountId : string)
    : UpdateProjectBillingInfoData :=
  {| bi_name := "projects/" +:+ projectId +:+ "/billingInfo";
     bi_projectId := projectId;
     bi_billingAccountName := "billingAccounts/" +:+ billingAccountId |}.

Definition enableServicesData : EnableServicesData :=
  {| serviceIds := REQUIRED_GCP_SERVICES |}.

Definition configureProject (fuel : nat) (projectId billingAccountId : string)
    : Proc unit :=
  _ <- call (updateProjectBillingInfo projectId
               (updateProjectBillingInfoData projectId billingAccountId)) ;;
  enableServicesResponse <- call (enableServices projectId enableServicesData) ;;
  enableServicesOperation <-
    whileNotDone fuel
      (Sleep (2 * 1000)
         (call (serviceUsageOperationGet (op_name enableServicesResponse))))
      None ;;
  match op_error enableServicesResponse with
  | Some _ => Ret tt     (* TODO: Throw error. *)
  | None => Ret tt
  end.

Definition createProjectData (projectId : string) : CreateProjectData :=
  {| cp_projectId := projectId;
     cp_name := OUTLINE_PROJECT_NAME;
     cp_labels := [("outline", "true")] |}.

Definition createProject (fuel : nat) (projectId billingAccountId : string)
    : Proc Project :=
  createProjectResponse <-
    call (createProject_ projectId (createProjectData projectId)) ;;
  createProjectOperation <-
    whileNotDone fuel
      (Sleep (2 * 1000)
         (call (resourceManagerOperationGet (op_name createProjectResponse))))
      None ;;
  (match createProjectOperation ≫= op_error with
   | Some _ => Ret tt    (* TODO: Throw error. *)
   | None => Ret tt
   end) ;;;
  configureProject fuel projectId billingAccountId ;;;
  Ret {| project_id := projectId; project_name := OUTLINE_PROJECT_NAME |}.

(** [enabled.find(service => service.config.name === requiredService)]:
    the first service with that name, if any; the test throws at a
    service without [config] that is reached before a match. *)
Fixpoint find_service (requiredService : string) (enabled : list Service)
    : Js.Error + option Service :=
  match enabled with
  | [] => inr None
  | service :: rest =>
      match service_config service with
      | None => inl (Js.TypeError "service.config is undefined")
      | Some config =>
          if String.eqb (config_name config) requiredService
          then inr (Some service)
          else find_service requiredService rest
      end
  end.

(** The [for ... of] loop over the required services. Each round reads
    [listEnabledServicesResponse.services] without a guard, so a response
    without that member throws in the first round. *)
Fixpoint isProjectHealthy_required
    (listEnabledServicesResponse : ListEnabledServicesResponse)
    (required : list string) : Proc bool :=
  match required with
  | [] => Ret true
  | requiredService :: rest =>
      match services listEnabledServicesResponse with
      | None =>
          Throw (Js.TypeError "listEnabledServicesResponse.services is undefined")
      | Some enabled =>
          match find_service requiredService enabled with
          | inl e => Throw e
          | inr None => Ret false
          | inr (Some _) =>
              isProjectHealthy_required listEnabledServicesResponse rest
          end
      end
  end.

Definition isProjectHealthy (projectId : string) : Proc bool :=
  projectBillingInfo <- call (getProjectBillingInfo projectId) ;;
  if negb (billingEnabled projectBillingInfo) then Ret false
  else
    listEnabledServicesResponse <- call (listEnabledServices projectId) ;;
    isProjectHealthy_required listEnabledServicesResponse
      REQUIRED_GCP_SERVICES.

Definition repairProject (fuel : nat) (projectId billingAccountId : string)
    : Proc unit :=
  configureProject fuel projectId billingAccountId.

Definition createFirewallData : CreateFirewallData :=
  {| fw_name := OUTLINE_FIREWALL_NAME;
     fw_direction := "INGRESS";
     fw_priority := 1000;
     fw_targetTags := [OUTLINE_FIREWALL_TAG];
     fw_allowed := ["all"];
     fw_sourceRanges := ["0.0.0.0/0"] |}.

Definition createFirewallIfNeeded (projectId : string) : Proc unit :=
  getFirewallResponse <- call (listFirewalls projectId OUTLINE_FIREWALL_NAME) ;;
  let items := getFirewallResponse ≫= firewalls_items in
  if match items with
     | None => true
     | Some rules => Nat.eqb (length rules) 0
     end
  then
    createFirewallOperation <-
      call (createFirewall projectId createFirewallData) ;;
    match op_error createFirewallOperation ≫= errors with
    | Some _ => Ret tt     (* TODO: Throw error. *)
    | None => Ret tt
    end
  else Ret tt.

Definition createStaticIpData (instance : Instance)
    (ipAddress : option string) : CreateStaticIpData :=
  {| ip_name := instance_name instance;
     ip_description := instance_description instance;
     ip_address := ipAddress |}.

Definition promoteEphemeralIpIfNeeded (locator : InstanceLocator)
    : Proc unit :=
  instance <- call (getInstance locator) ;;
  match networkInterfaces instance with
  | [] => Throw (Js.TypeError "networkInterfaces[0] is undefined")
  | networkInterface :: _ =>
      match accessConfigs networkInterface with
      | [] => Throw (Js.TypeError "accessConfigs[0] is undefined")
      | accessConfig :: _ =>
          let ipAddress := natIP accessConfig in
          createStaticIpOperation <-
            call (createStaticIp (projectId locator)
                    (getRegionId (zoneId locator))
                    (createStaticIpData instance ipAddress)) ;;
          match op_error createStaticIpOperation ≫= errors with
          | Some _ => Ret tt   (* TODO: Delete VM instance. Throw error. *)
          | None => Ret tt
          end
      end
  end.

Definition getInstallScript : string :=
  String.append "#!/bin/bash -eu" (String.append (String "010"%char EmptyString) SCRIPT).

Definition createInstanceData (name description zoneId : string)
    : CreateInstanceData :=
  {| ci_name := name;
     ci_description := description;
     ci_machineType :=
       "zones/" +:+ zoneId +:+ "/machineTypes/" +:+ MACHINE_SIZE;
     ci_disks :=
       [{| disk_boot := true;
           disk_sourceImage :=
             "projects/ubuntu-os-cloud/global/images/family/ubuntu-1804-lts" |}];
     ci_networkInterfaces :=
       [{| nic_network := "global/networks/default";
           nic_accessConfigs := [tt] |}];
     ci_labels := [("outline", "true")];
     ci_tags := [OUTLINE_FIREWALL_TAG];
     ci_metadata :=
       [("enable-guest-attributes", "TRUE");
        ("user-data", getInstallScript)] |}.

(** The promise [completion]: the wait for the creation operation
    followed by the address promotion, next to the firewall step. *)
Definition completion (projectId zoneId : string) (operation : Operation)
    : PromiseAll :=
  {| first :=
       (call (computeEngineOperationZoneWait projectId zoneId
                (op_name operation)) ;;;
        promoteEphemeralIpIfNeeded
          {| projectId := projectId; zoneId := zoneId;
             instanceId := op_targetId operation |});
     second := createFirewallIfNeeded projectId |}.

Definition createInstance (projectId description zoneId : string)
    : Proc CreatedInstance :=
  NewDate (fun now =>
  let name := makeInstanceName now in
  operation <-
    call (createInstance_ projectId zoneId
            (createInstanceData name description zoneId)) ;;
  let instanceId := op_targetId operation in
  Ret {| created_instanceId := instanceId;
         created_name := name;
         created_completion := completion projectId zoneId operation |}).

Definition createServer (this : GcpAccount)
    (projectId description zoneId : string) : Proc GcpServer :=
  created <- createInstance projectId description zoneId ;;
  let locator :=
    {| projectId := projectId; zoneId := zoneId;
       instanceId := created_instanceId created |} in
  Ret {| server_accountId := id this;
         server_locator := locator;
         server_name := created_name created;
         server_completion := created_completion created |}.

End Account.

(** ** A simulated cloud

    A reference environment for running the account model: it stores
    firewall rules, reserved addresses and the instance that was
    created, and completes a long-running operation after a number of
    polls. A [Scenario] fixes what the simulation is asked to report. *)

Record Scenario : Type := {
  sc_localTZA : Z;
  sc_zones : option (list Zone);
  sc_billingEnabled : bool;
  sc_services : option (list string);
  sc_natIP : option string;
  sc_createInstanceDone : bool;
  sc_operationError : option OperationError;
  sc_firewallError : option OperationError;
  sc_staticIpError : option OperationError
}.

Record Cloud : Type := {
  cloud_time : Z;
  cloud_pollsLeft : nat;
  cloud_firewalls : list (string * string);             (* project, name *)
  cloud_addresses : list (string * string * option string);
  cloud_instance : option (string * string)             (* name, description *)
}.

Definition pendingOperation (name targetId : string) (done : bool)
    : Operation :=
  {| op_name := name; op_done := done; op_targetId := targetId;
     op_error := None |}.

Definition polledOperation (sc : Scenario) (name : string) (c : Cloud)
    : Operation * Cloud :=
  match cloud_pollsLeft c with
  | O =>
      ({| op_name := name; op_done := true; op_targetId := EmptyString;
          op_error := sc_operationError sc |}, c)
  | S n =>
      (pendingOperation name EmptyString false,
       {| cloud_time := cloud_time c; cloud_pollsLeft := n;
          cloud_firewalls := cloud_firewalls c;
          cloud_addresses := cloud_addresses c;
          cloud_instance := cloud_instance c |})
  end.

Definition matchingRule (project name : string) (rule : string * string)
    : bool :=
  String.eqb rule.1 project && String.eqb rule.2 name.

(** Number of firewall rules of a project that carry a name. *)
Definition countRules (project name : string) (c : Cloud) : nat :=
  length (List.filter (matchingRule project name) (cloud_firewalls c)).

Definition simRequest (sc : Scenario) (call : ApiCall) (c : Cloud)
    : (Js.Error + Reply call) * Cloud :=
  match call as call0 return (Js.Error + Reply call0) * Cloud with
  | listZones _ => (inr {| zones_items := sc_zones sc |}, c)
  | createProject_ project _ =>
      (inr (pendingOperation ("operations/cp." +:+ project) EmptyString false), c)
  | resourceManagerOperationGet name =>
      let '(op, c') := polledOperation sc name c in (inr op, c')
  | getProjectBillingInfo _ =>
      (inr {| billingEnabled := sc_billingEnabled sc |}, c)
  | updateProjectBillingInfo _ _ => (inr {| billingEnabled := true |}, c)
  | listEnabledServices _ =>
      (inr {| services :=
                option_map
                  (List.map
                     (fun n =>
                        {| service_config := Some {| config_name := n |} |}))
                  (sc_services sc) |}, c)
  | enableServices project _ =>
      (inr (pendingOperation ("operations/acf." +:+ project) EmptyString false), c)
  | serviceUsageOperationGet name =>
      let '(op, c') := polledOperation sc name c in (inr op, c')
  | listFirewalls project name =>
      match List.filter (matchingRule project name) (cloud_firewalls c) with
      | [] => (inr (Some {| firewalls_items := None |}), c)
      | found =>
          (inr (Some {| firewalls_items :=
                          Some (List.map
                                  (fun r => {| firewall_name := r.2 |})
                                  found) |}), c)
      end
  | createFirewall project data =>
      match sc_firewallError sc with
      | Some e =>
          (inr {| op_name := "operation-fw"; op_done := true;
                  op_targetId := EmptyString; op_error := Some e |}, c)
      | None =>
          (inr (pendingOperation "operation-fw" EmptyString false),
           {| cloud_time := cloud_time c;
              cloud_pollsLeft := cloud_pollsLeft c;
              cloud_firewalls := cloud_firewalls c ++ [(project, fw_name data)];
              cloud_addresses := cloud_addresses c;
              cloud_instance := cloud_instance c |})
      end
  | createInstance_ _ _ data =>
      (inr (pendingOperation "operation-vm" "4242"
              (sc_createInstanceDone sc)),
       {| cloud_time := cloud_time c;
          cloud_pollsLeft := cloud_pollsLeft c;
          cloud_firewalls := cloud_firewalls c;
          cloud_addresses := cloud_addresses c;
          cloud_instance := Some (ci_name data, ci_description data) |})
  | computeEngineOperationZoneWait _ _ name =>
      (inr (pendingOperation name "4242" true), c)
  | getInstance _ =>
      match cloud_instance c with
      | None => (inl (Js.RequestFailed "notFound"), c)
      | Some (name, description) =>
          (inr {| instance_name := name;
                  instance_description := description;
                  networkInterfaces :=
                    [{| accessConfigs := [{| natIP := sc_natIP sc |}] |}] |},
           c)
      end
  | createStaticIp project region data =>
      (inr {| op_name := "operation-ip"; op_done := false;
              op_targetId := EmptyString; op_error := sc_staticIpError sc |},
       {| cloud_time := cloud_time c;
          cloud_pollsLeft := cloud_pollsLeft c;
          cloud_firewalls := cloud_firewalls c;
          cloud_addresses :=
            cloud_addresses c ++ [(project, region, ip_address data)];
          cloud_instance := cloud_instance c |})
  end.

Definition simEnv (sc : Scenario) : Env Cloud :=
  {| request := simRequest sc;
     elapse := fun ms c =>
       {| cloud_time := cloud_time c + ms;
          cloud_pollsLeft := cloud_pollsLeft c;
          cloud_firewalls := cloud_firewalls c;
          cloud_addresses := cloud_addresses c;
          cloud_instance := cloud_instance c |};
     clock := fun c =>
       {| Date.timeValue := cloud_time c; Date.localTZA := sc_localTZA sc |} |}.

(** A healthy scenario: everything succeeds at the first poll. *)
Definition calmScenario : Scenario :=
  {| sc_localTZA := 0;
     sc_zones :=
       Some [ {| zone_name := "us-central1-a";
                 zone_region := "https://www.googleapis.com/compute/v1/projects/p/regions/us-central1";
                 zone_status := "UP" |};
              {| zone_name := "us-central1-b";
                 zone_region := "https://www.googleapis.com/compute/v1/projects/p/regions/us-central1";
                 zone_status := "DOWN" |};
              {| zone_name := "europe-west1-b";
                 zone_region := "https://www.googleapis.com/compute/v1/projects/p/regions/europe-west1";
                 zone_status := "UP" |} ];
     sc_billingEnabled := true;
     sc_services :=
       Some ["compute.googleapis.com"; "oslogin.googleapis.com"];
     sc_natIP := Some "34.68.1.2";
     sc_createInstanceDone := false;
     sc_operationError := None;
     sc_firewallError := None;
     sc_staticIpError := None |}.

(** A project with billing enabled and no enabled service: the
    enabled-services response comes without a [services] member. *)
Definition bareProjectScenario : Scenario :=
  {| sc_localTZA := sc_localTZA calmScenario;
     sc_zones := sc_zones calmScenario;
     sc_billingEnabled := true;
     sc_services := None;
     sc_natIP := sc_natIP calmScenario;
     sc_createInstanceDone := false;
     sc_operationError := None;
     sc_firewallError := None;
     sc_staticIpError := None |}.

(** 2021-03-05T04:07:09Z, nothing provisioned yet. *)
Definition freshCloud : Cloud :=
  {| cloud_time := 1614917229000;
     cloud_pollsLeft := 0;
     cloud_firewalls := [];
     cloud_addresses := [];
     cloud_instance := None |}.

(** [getRegionId] as used in the simulated runs: the zone id up to its
    last dash. *)
Definition simRegionId (zoneId : string) : string :=
  String.substring 0 (Z.to_nat (Js.lastIndexOf "-" zoneId)) zoneId.

Definition account0 : GcpAccount :=
  {| id := "account-1"; refreshToken := "token" |}.

(** ** Vocabulary of the specification *)

(** [n] in decimal, padded with zeros on the left to [width] characters. *)
Definition zeroPad (width : nat) (n : Z) : string :=
  let digits := Js.numberToString n in
  String.concat EmptyString
    (List.repeat "0" (width - String.length digits)) +:+ digits.

(** The name the specification describes, [outline-YYYYMMDD-HHMMSS]:
    year, month and day of the calendar date, then hours, minutes and
    seconds, each zero-padded. *)
Definition specInstanceName (now : Date.t) : string :=
  "outline-" +:+ zeroPad 4 (Date.getFullYear now)
    +:+ zeroPad 2 (Date.getMonth now + 1)
    +:+ zeroPad 2 (Date.getDate now)
    +:+ "-" +:+ zeroPad 2 (Date.getUTCHours now)
    +:+ zeroPad 2 (Date.getUTCMinutes now)
    +:+ zeroPad 2 (Date.getUTCSeconds now).

Definition isDigit (a : ascii) : bool :=
  let n := N_of_ascii a in (48 <=? n)%N && (n <=? 57)%N.

Fixpoint allDigits (s : string) : bool :=
  match s with
  | EmptyString => true
  | String a rest => isDigit a && allDigits rest
  end.

(** Whether a string has the shape [outline-DDDDDDDD-DDDDDD]. *)
Definition matchesNamePattern (s : string) : bool :=
  String.eqb (String.substring 0 8 s) "outline-"
  && allDigits (String.substring 8 8 s)
  && String.eqb (String.substring 16 1 s) "-"
  && allDigits (String.substring 17 6 s)
  && Nat.eqb (String.length s) 23.

(** Whether a character occurs in a string. *)
Fixpoint occurs (c : ascii) (s : string) : bool :=
  match s with
  | EmptyString => false
  | String a rest => Ascii.eqb a c || occurs c rest
  end.

(** [key] is what follows the last ['/'] of [url] (all of [url] when it
    has none). *)
Definition suffixAfterLastSlash (url key : string) : Prop :=
  occurs "/" key = false
  ∧ (url = key ∨ ∃ front, url = front +:+ "/" +:+ key).

(** The key [listLocations] files a zone under. *)
Definition zoneRegionKey (zone : Zone) : string :=
  Js.substring (Js.lastIndexOf "/" (zone_region zone) + 1) (zone_region zone).

(** The responses of a polling loop: every round sleeps two seconds and
    queries the operation; all but the last find it unfinished. *)
Inductive Polled (query : Operation -> Event)
    : list Event -> Operation -> Prop :=
| polled_done op :
    op_done op = true ->
    Polled query [Slept (2 * 1000); query op] op
| polled_again op' trace op :
    op_done op' = false ->
    Polled query trace op ->
    Polled query (Slept (2 * 1000) :: query op' :: trace) op.

(** All interleavings of a given length. *)
Fixpoint schedules (n : nat) : list (list bool) :=
  match n with
  | O => [[]]
  | S n' =>
      List.map (cons true) (schedules n')
      ++ List.map (cons false) (schedules n')
  end.

(** Every zone name filed in [result] is the name of an [UP] zone of
    [zones], filed under the key of that zone. *)
Definition listed (zones : list Zone) (result : ZoneMap) : Prop :=
  ∀ key names zoneName,
    result !! key = Some names ->
    zoneName ∈ names ->
    ∃ zone,
      zone ∈ zones
      ∧ zone_name zone = zoneName
      ∧ zone_status zone = "UP"
      ∧ zoneRegionKey zone = key.

(** The names of the listed services that carry a configuration. *)
Definition enabledNames (enabled : list Service) : list string :=
  omap (fun service => config_name <$> service_config service) enabled.

(** Every listed service carries a [config] member. *)
Definition configured (enabled : list Service) : Prop :=
  Forall (fun service => is_Some (service_config service)) enabled.

(** A trace without a request that creates or changes a resource. *)
Definition readOnly (trace : list Event) : Prop :=
  countCalls isMutation trace = 0%nat.

(** An event of a loop that polls the service-usage operation [name]. *)
Definition pollEvent (name : string) (ev : Event) : Prop :=
  ev = Slept (2 * 1000) ∨ eventCall ev = Some (serviceUsageOperationGet name).

(** The response of a poll of the service-usage operation [name]. *)
Definition polledServiceUsage (name : string) (op : Operation) : Event :=
  Called (serviceUsageOperationGet name) (inr op).

(** The service-usage operation [name] is reported done within [rounds]
    rounds of sleeping and polling that start in state [s]. *)
Fixpoint doneWithin {St : Type} (env : Env St) (name : string)
    (rounds : nat) (s : St) : Prop :=
  match rounds with
  | O => False
  | S rounds' =>
      match request env (serviceUsageOperationGet name)
              (elapse env (2 * 1000) s) with
      | (inr op, s1) =>
          if op_done op then True else doneWithin env name rounds' s1
      | (inl _, _) => False
      end
  end.

Definition withError (err : option OperationError) (op : Operation)
    : Operation :=
  {| op_name := op_name op; op_done := op_done op;
     op_targetId := op_targetId op; op_error := err |}.

(** The environment that answers like [env] except that every polled
    service-usage operation carries the error [err]. *)
Definition withOperationError {St : Type} (err : option OperationError)
    (env : Env St) : Env St :=
  {| request := fun c =>
       match c as c0 return St -> (Js.Error + Reply c0) * St with
       | serviceUsageOperationGet name => fun s =>
           let '(r, s1) := request env (serviceUsageOperationGet name) s in
           (match r with
            | inl e => inl e
            | inr op => inr (withError err op)
            end, s1)
       | c0 => request env c0
       end;
     elapse := elapse env;
     clock := clock env |}.

(** Two outcomes that end the same way, whatever value is returned. *)
Definition sameEnd {A B : Type} (o : Outcome A) (o' : Outcome B) : Prop :=
  match o, o' with
  | Returned _, Returned _ => True
  | Raised e, Raised e' => e = e'
  | Polling, Polling => True
  | _, _ => False
  end.

(** A service-enablement operation that ends with an error, after two
    unfinished polls. *)
Definition enablementFailsScenario : Scenario :=
  {| sc_localTZA := sc_localTZA calmScenario;
     sc_zones := sc_zones calmScenario;
     sc_billingEnabled := false;
     sc_services := Some [];
     sc_natIP := sc_natIP calmScenario;
     sc_createInstanceDone := false;
     sc_operationError := Some {| errors := Some ["PERMISSION_DENIED"] |};
     sc_firewallError := None;
     sc_staticIpError := None |}.

Definition slowCloud : Cloud :=
  {| cloud_time := 1614917229000;
     cloud_pollsLeft := 2;
     cloud_firewalls := [];
     cloud_addresses := [];
     cloud_instance := None |}.

(** The shape of every run of [configureProject]: the billing link
    first; service enablement only after the link was answered; then
    only sleeps and polls of the enablement operation, which end with a
    response that is done when the method returns. *)
Definition configuredInOrder (projectId billingAccountId : string)
    (outcome : Outcome unit) (trace : list Event) : Prop :=
  (∃ e,
     trace =
       [Called
          (updateProjectBillingInfo projectId
             (updateProjectBillingInfoData projectId billingAccountId))
          (inl e)]
     ∧ outcome = Raised e)
  ∨ (∃ info e,
       trace =
         [Called
            (updateProjectBillingInfo projectId
               (updateProjectBillingInfoData projectId billingAccountId))
            (inr info);
          Called (enableServices projectId enableServicesData) (inl e)]
       ∧ outcome = Raised e)
  ∨ (∃ info response polls,
       trace =
         Called
           (updateProjectBillingInfo projectId
              (updateProjectBillingInfoData projectId billingAccountId))
           (inr info)
         :: Called (enableServices projectId enableServicesData)
              (inr response)
         :: polls
       ∧ Forall (pollEvent (op_name response)) polls
       ∧ (outcome = Returned tt ->
          ∃ op, Polled (polledServiceUsage (op_name response)) polls op)).

(** A cloud in which the instance of a first [createServer] exists. *)
Definition provisionedCloud : Cloud :=
  {| cloud_time := 1614917229000;
     cloud_pollsLeft := 0;
     cloud_firewalls := [];
     cloud_addresses := [];
     cloud_instance := Some ("outline-202125-479", "my server") |}.

Definition locator0 : InstanceLocator :=
  {| projectId := "proj-1"; zoneId := "us-central1-a"; instanceId := "4242" |}.

(** An event that shows the instance-creation operation done: the
    response to the creation request when it is already done, or the
    response of the wait for it. *)
Definition reportsDone (ev : Event) : bool :=
  match ev with
  | Called c r =>
      match c as c0 return Js.Error + Reply c0 -> bool with
      | createInstance_ _ _ _ | computeEngineOperationZoneWait _ _ _ =>
          fun r0 => match r0 with
                    | inr op => op_done op
                    | inl _ => false
                    end
      | _ => fun _ => false
      end r
  | Slept _ => false
  end.

(** The statement that a server handle is only returned once the
    creation operation has been seen done. *)
Definition returnsAfterCreationDone {St : Type} (env : Env St)
    (p : Proc GcpServer) (s : St) : Prop :=
  ∀ server s' trace,
    run env p s = (Returned server, s', trace) ->
    existsb reportsDone trace = true.

(** The response to a firewall creation that carries errors. *)
Definition firewallErrorReported (ev : Event) : bool :=
  match ev with
  | Called c r =>
      match c as c0 return Js.Error + Reply c0 -> bool with
      | createFirewall _ _ =>
          fun r0 => match r0 with
                    | inr op => bool_decide (is_Some (op_error op ≫= errors))
                    | inl _ => false
                    end
      | _ => fun _ => false
      end r
  | Slept _ => false
  end.

(** The firewall rule cannot be created: the operation comes back with
    errors. *)
Definition firewallFailsScenario : Scenario :=
  {| sc_localTZA := sc_localTZA calmScenario;
     sc_zones := sc_zones calmScenario;
     sc_billingEnabled := true;
     sc_services := sc_services calmScenario;
     sc_natIP := sc_natIP calmScenario;
     sc_createInstanceDone := false;
     sc_operationError := None;
     sc_firewallError := Some {| errors := Some ["QUOTA_EXCEEDED"] |};
     sc_staticIpError := None |}.

(** An environment that keeps firewall rules: [rules s project name] is
    the number of rules of that name; listing reports a rule exactly
    when there is one and changes nothing; creating adds one rule. *)
Record FirewallStore {St : Type} (env : Env St)
    (rules : St -> string -> string -> nat) : Prop := {
  store_list : ∀ s project name,
    ∃ response s1,
      request env (listFirewalls project name) s = (inr response, s1)
      ∧ (∀ project' name', rules s1 project' name' = rules s project' name')
      ∧ match response ≫= firewalls_items with
        | Some (_ :: _) => (0 < rules s project name)%nat
        | _ => rules s project name = 0%nat
        end;
  store_create : ∀ s project data,
    ∃ op s1,
      request env (createFirewall project data) s = (inr op, s1)
      ∧ rules s1 project (fw_name data) = S (rules s project (fw_name data))
}.

(** An event other than a rejected request. *)
Definition answered (ev : Event) : Prop :=
  match ev with
  | Called _ (inl _) => False
  | _ => True
  end.

(** ** Vocabulary for the properties beyond the specification *)

(** A key that every object literal inherits. *)
Definition inherited (key : string) : bool :=
  bool_decide (key ∈ Js.objectPrototypeKeys).

(** The names of the [UP] zones of a region key, in the order listed. *)
Definition upNames (key : string) (zones : list Zone) : list string :=
  List.map zone_name
    (List.filter
       (fun zone =>
          String.eqb (zone_status zone) "UP"
          && String.eqb (zoneRegionKey zone) key)
       zones).

(** Whether some zone, up or not, belongs to a region key. *)
Definition hasRegion (key : string) (zones : list Zone) : bool :=
  existsb (fun zone => String.eqb (zoneRegionKey zone) key) zones.

(** A zone that makes [listLocations] fail: it is [UP] and its region
    key is inherited by object literals. *)
Definition unlistable (zone : Zone) : Prop :=
  zone_status zone = "UP" ∧ inherited (zoneRegionKey zone) = true.

(** One region that is the name of an inherited property. *)
Definition oddZones : list Zone :=
  [ {| zone_name := "us-central1-a";
       zone_region := "projects/p/regions/us-central1";
       zone_status := "UP" |};
    {| zone_name := "constructor-a";
       zone_region := "projects/p/regions/constructor";
       zone_status := "UP" |} ].

Definition oddScenario : Scenario :=
  {| sc_localTZA := 0;
     sc_zones := Some oddZones;
     sc_billingEnabled := true;
     sc_services := Some [];
     sc_natIP := None;
     sc_createInstanceDone := false;
     sc_operationError := Some {| errors := None |};
     sc_firewallError := None;
     sc_staticIpError := None |}.





(** *** The order of the address promotion

    The promotion goes through three stages: 0 before the wait for the
    creation operation is answered, 1 once it is, 2 once the instance
    has been fetched. *)

(** Whether a request may be sent at a stage. *)
Definition allowedAt (stage : nat) (c : ApiCall) : bool :=
  match c with
  | getInstance _ => Nat.leb 1 stage
  | createStaticIp _ _ _ => Nat.leb 2 stage
  | _ => true
  end.

(** The stage after a request has been answered. *)
Definition stageAfter (stage : nat) (c : ApiCall) : nat :=
  match c with
  | computeEngineOperationZoneWait _ _ _ => Nat.max stage 1
  | getInstance _ => Nat.max stage 2
  | _ => stage
  end.

(** Requests that play no part in the promotion. *)
Definition besidePromotion (c : ApiCall) : bool :=
  match c with
  | computeEngineOperationZoneWait _ _ _ | getInstance _
  | createStaticIp _ _ _ => false
  | _ => true
  end.

(** Follows a trace from a stage; [None] when a request comes too early. *)
Fixpoint followStages (stage : nat) (trace : list Event) : option nat :=
  match trace with
  | [] => Some stage
  | Slept _ :: rest => followStages stage rest
  | Called c r :: rest =>
      if allowedAt stage c then
        followStages
          (match r with inr _ => stageAfter stage c | inl _ => stage end) rest
      else None
  end.

(** A process all of whose runs keep the order, from a stage on. *)
Fixpoint keepsOrder (stage : nat) (p : Proc unit) : Prop :=
  match p with
  | Ret _ | Throw _ | Spin => True
  | Sleep _ k => keepsOrder stage k
  | NewDate k => ∀ now, keepsOrder stage (k now)
  | Await c k =>
      allowedAt stage c = true ∧ ∀ r, keepsOrder (stageAfter stage c) (k r)
  end.

(** A process that sends none of the requests of the promotion. *)
Fixpoint staysBeside (p : Proc unit) : Prop :=
  match p with
  | Ret _ | Throw _ | Spin => True
  | Sleep _ k => staysBeside k
  | NewDate k => ∀ now, staysBeside (k now)
  | Await c k => besidePromotion c = true ∧ ∀ r, staysBeside (k r)
  end.

(** The answered wait for the creation operation. *)
Definition zoneWaitAnswered (ev : Event) : bool :=
  match ev with
  | Called (computeEngineOperationZoneWait _ _ _) (inr _) => true
  | _ => false
  end.

(** The answered fetch of the instance. *)
Definition instanceFetched (ev : Event) : bool :=
  match ev with
  | Called (getInstance _) (inr _) => true
  | _ => false
  end.

Definition isGetInstance (c : ApiCall) : bool :=
  match c with getInstance _ => true | _ => false end.

(** An instance that exists but has no network interface. *)
Definition bareInstance : Instance :=
  {| instance_name := "outline-202125-479";
     instance_description := "my server";
     networkInterfaces := [] |}.

(** A way through a process on which every request is answered, down
    to a [return]: the events in order, and the value returned. *)
Inductive Path {A : Type} : Proc A -> list Event -> A -> Prop :=
| path_ret a : Path (Ret a) [] a
| path_await c k v trace a :
    Path (k v) trace a ->
    Path (Await c k) (Called c (inr v) :: trace) a
| path_sleep ms k trace a :
    Path k trace a ->
    Path (Sleep ms k) (Slept ms :: trace) a
| path_date k now trace a :
    Path (k now) trace a ->
    Path (NewDate k) trace a.

(** The answered reservation of a static address. *)
Definition addressReserved (ev : Event) : bool :=
  match ev with
  | Called (createStaticIp _ _ _) (inr _) => true
  | _ => false
  end.

(** The answered query for the firewall rule. *)
Definition firewallListed (ev : Event) : bool :=
  match ev with
  | Called (listFirewalls _ _) (inr _) => true
  | _ => false
  end.

(** A provider that only knows an instance without network interface. *)
Definition bareEnv : Env unit :=
  {| request := fun c s =>
       (match c as c0 return Js.Error + Reply c0 with
        | getInstance _ => inr bareInstance
        | _ => inl (Js.RequestFailed "unavailable")
        end, s);
     elapse := fun _ s => s;
     clock := fun _ => {| Date.timeValue := 0; Date.localTZA := 0 |} |}.

(** The completion of the simulated [createServer] and the instance it
    is about. *)
Definition completion0 : PromiseAll :=
  completion simRegionId "proj-1" "us-central1-a"
    (pendingOperation "operation-vm" "4242" false).

Definition provisionedInstance : Instance :=
  {| instance_name := "outline-202125-479";
     instance_description := "my server";
     networkInterfaces :=
       [{| accessConfigs := [{| natIP := Some "34.68.1.2" |}] |}] |}.

(** The firewall query is answered first, the creation of the rule
    last. *)
Definition schedule0 : list bool := [false; true; true; true; false].

(** Both processes query before either creates. *)
Definition lockstep : list bool := [true; false; true; false].

(** The same second as [freshCloud], 999 milliseconds later. *)
Definition laterCloud : Cloud :=
  {| cloud_time := 1614917229999;
     cloud_pollsLeft := 0;
     cloud_firewalls := [];
     cloud_addresses := [];
     cloud_instance := Some ("outline-202125-479", "my server") |}.

(** ** The listing methods of the account

    [listServers] and [listOpenBillingAccounts] use requests of the REST
    client beyond those of the provisioning flow, and [listServers]
    awaits a [Promise.all] over one request per zone. Their processes
    are [Task]s over the larger signature [FacadeCall]. *)

(** An instance as [listInstances] reports it. *)
Record ListedInstance : Type := {
  listed_id : string;
  listed_name : string;
  listed_zone : string
}.

Record ListInstancesResponse : Type := {
  instances_items : option (list ListedInstance)
}.

Record BillingAccountEntry : Type := {
  entry_name : string;            (* the resource name, billingAccounts/ID *)
  entry_displayName : string;
  entry_open : bool
}.

Record ListBillingAccountsResponse : Type := {
  billingAccounts : option (list BillingAccountEntry)
}.

(** [gcp.BillingAccount]. *)
Record BillingAccount : Type := {
  billing_id : string;
  billing_name : string
}.

(** The query of one [listInstances] request. *)
Record InstancesQuery : Type := {
  query_projectId : string;
  query_zoneId : string;
  query_filter : string
}.

Inductive FacadeCall : Type :=
| core (c : ApiCall)
| listInstances (query : InstancesQuery)
| listBillingAccounts.

Definition FacadeReply (c : FacadeCall) : Type :=
  match c with
  | core c0 => Reply c0
  | listInstances _ => ListInstancesResponse
  | listBillingAccounts => ListBillingAccountsResponse
  end.

Inductive Task (A : Type) : Type :=
| Done (a : A)                                          (* return a *)
| Fail (e : Js.Error)                                   (* throw e *)
| Ask (c : FacadeCall) (k : FacadeReply c -> Task A)    (* await apiClient.c *)
| AskAll (queries : list InstancesQuery)
    (k : list ListInstancesResponse -> Task A).
    (* await Promise.all(queries.map(listInstances)) *)

Arguments Done {A} a.
Arguments Fail {A} e.
Arguments Ask {A} c k.
Arguments AskAll {A} queries k.

Record Provider (St : Type) : Type := {
  answer : forall c : FacadeCall, St -> (Js.Error + FacadeReply c) * St
}.

Arguments answer {St} _ c _.

Inductive FacadeEvent : Type :=
| Asked (c : FacadeCall) (r : Js.Error + FacadeReply c).

Section Performing.

Context {St : Type} (provider : Provider St).

(** The responses to the requests of a [Promise.all] arrive in the
    order given by [order], a list of positions in [queries]; [slots]
    holds the responses that have arrived. A position without a pending
    request is skipped. The first rejection ends the wait. *)
Fixpoint arrivals (order : list nat) (queries : list InstancesQuery)
    (slots : list (option ListInstancesResponse)) (s : St)
    : (Js.Error + list (option ListInstancesResponse)) * St
      * list FacadeEvent :=
  match order with
  | [] => (inr slots, s, [])
  | i :: rest =>
      match queries !! i, slots !! i with
      | Some query, Some None =>
          let '(r, s1) := answer provider (listInstances query) s in
          match r with
          | inl e => (inl e, s1, [Asked (listInstances query) r])
          | inr v =>
              let '(result, s2, t) :=
                arrivals rest queries (<[i := Some v]> slots) s1 in
              (result, s2, Asked (listInstances query) r :: t)
          end
      | _, _ => arrivals rest queries slots s
      end
  end.

(** Runs a task; [Polling] stands for a [Promise.all] that is still
    waiting for a response when the arrivals are used up. *)
Fixpoint perform {A : Type} (order : list nat) (task : Task A) (s : St)
    : Outcome A * St * list FacadeEvent :=
  match task with
  | Done a => (Returned a, s, [])
  | Fail e => (Raised e, s, [])
  | Ask c k =>
      let '(r, s1) := answer provider c s in
      match r with
      | inl e => (Raised e, s1, [Asked c r])
      | inr v =>
          let '(o, s2, t) := perform order (k v) s1 in
          (o, s2, Asked c r :: t)
      end
  | AskAll queries k =>
      let '(result, s1, t1) :=
        arrivals order queries (List.repeat None (length queries)) s in
      match result with
      | inl e => (Raised e, s1, t1)
      | inr slots =>
          match mapM (fun slot => slot) slots with
          | None => (Polling, s1, t1)
          | Some responses =>
              let '(o, s2, t2) := perform order (k responses) s1 in
              (o, s2, t1 ++ t2)
          end
      end
  end.

End Performing.

(** [Promise.resolve()]: nothing left in flight. *)
Definition resolved : PromiseAll := {| first := Ret tt; second := Ret tt |}.

Definition listServers (this : GcpAccount) (projectId : string)
    : Task (list GcpServer) :=
  Ask (core (listZones projectId)) (fun listZonesResponse =>
  match zones_items listZonesResponse with
  | None => Fail (Js.TypeError "listZonesResponse.items is not iterable")
  | Some zones =>
      let filter := "labels.outline=true" in
      let listInstancesPromises :=
        List.map
          (fun zone =>
             {| query_projectId := projectId;
                query_zoneId := zone_name zone;
                query_filter := filter |})
          zones in
      AskAll listInstancesPromises (fun listInstancesResponses =>
      Done
        (List.flat_map
           (fun response =>
              let instances := default [] (instances_items response) in
              List.map
                (fun instance =>
                   let zoneId :=
                     Js.substring
                       (Js.lastIndexOf "/" (listed_zone instance) + 1)
                       (listed_zone instance) in
                   let locator :=
                     {| projectId := projectId; zoneId := zoneId;
                        instanceId := listed_id instance |} in
                   {| server_accountId := id this;
                      server_locator := locator;
                      server_name := listed_name instance;
                      server_completion := resolved |})
                instances)
           listInstancesResponses))
  end).

Definition listOpenBillingAccounts : Task (list BillingAccount) :=
  Ask listBillingAccounts (fun response =>
  match billingAccounts response with
  | Some (first :: others) =>
      Done
        (List.map
           (fun billingAccount =>
              {| billing_id :=
                   Js.substring
                     (Js.lastIndexOf "/" (entry_name billingAccount) + 1)
                     (entry_name billingAccount);
                 billing_name := entry_displayName billingAccount |})
           (List.filter entry_open (first :: others)))
  | Some [] | None => Done []
  end).

(** The server that [listServers] makes of a listed instance. *)
Definition listedServer (this : GcpAccount) (projectId : string)
    (instance : ListedInstance) : GcpServer :=
  {| server_accountId := id this;
     server_locator :=
       {| projectId := projectId;
          zoneId :=
            Js.substring (Js.lastIndexOf "/" (listed_zone instance) + 1)
              (listed_zone instance);
          instanceId := listed_id instance |};
     server_name := listed_name instance;
     server_completion := resolved |}.

(** The query [listServers] sends for a zone. *)
Definition zoneQuery (projectId : string) (zone : Zone) : InstancesQuery :=
  {| query_projectId := projectId;
     query_zoneId := zone_name zone;
     query_filter := "labels.outline=true" |}.

Definition isListInstances (ev : FacadeEvent) : bool :=
  match ev with
  | Asked (listInstances _) _ => true
  | _ => false
  end.

(** A provider with two zones, one instance in the first, and one open
    and one closed billing account. *)
Definition listingProvider (withZones : bool) : Provider unit :=
  {| answer := fun c s =>
       (match c as c0 return Js.Error + FacadeReply c0 with
        | core (listZones _) =>
            inr {| zones_items :=
                     if withZones then
                       Some [ {| zone_name := "us-central1-a";
                                 zone_region := "regions/us-central1";
                                 zone_status := "UP" |};
                              {| zone_name := "us-central1-b";
                                 zone_region := "regions/us-central1";
                                 zone_status := "UP" |} ]
                     else None |}
        | core _ => inl (Js.RequestFailed "unavailable")
        | listInstances query =>
            inr {| instances_items :=
                     if String.eqb (query_zoneId query) "us-central1-a" then
                       Some [ {| listed_id := "4242";
                                 listed_name := "outline-202125-479";
                                 listed_zone :=
                                   "projects/proj-1/zones/us-central1-a" |} ]
                     else None |}
        | listBillingAccounts =>
            inr {| billingAccounts :=
                     Some [ {| entry_name := "billingAccounts/0A1B-2C3D";
                               entry_displayName := "Main";
                               entry_open := true |};
                            {| entry_name := "billingAccounts/FFFF-0000";
                               entry_displayName := "Old";
                               entry_open := false |} ] |}
        end, s) |}.

(** Number of responses that have arrived. *)
Fixpoint arrived (slots : list (option ListInstancesResponse)) : nat :=
  match slots with
  | [] => 0
  | Some _ :: rest => S (arrived rest)
  | None :: rest => arrived rest
  end.

(** The servers [listServers] makes of the responses, zone by zone. *)
Definition listedServers (this : GcpAccount) (projectId : string)
    (responses : list ListInstancesResponse) : list GcpServer :=
  List.flat_map
    (fun response =>
       List.map (listedServer this projectId)
         (default [] (instances_items response)))
    responses.

(** ** The shared metrics publisher

    The second part of the source: [OutlineSharedMetricsPublisher] with
    its collaborators (clock, configuration, usage metrics, collector,
    logging) as requests of a signature, and the fields of the object
    and of the configuration data as memory. The values of type
    [number] (byte counts, timestamps) are never computed with, only
    compared with zero and passed on: their type is a parameter. *)

Section MetricsModel.

Context {Number : Type}.

(** [x === 0]. *)
Variable isZero : Number -> bool.

Record CountryUsage : Type := {
  country : string;
  inboundBytes : Number
}.

Record HourlyUserMetricsReportJson : Type := {
  countries : list string;
  bytesTransferred : Number
}.

Record HourlyServerMetricsReportJson : Type := {
  hourly_serverId : string;
  startUtcMs : Number;
  endUtcMs : Number;
  userReports : list HourlyUserMetricsReportJson
}.

Record DailyDataLimitMetricsReportJson : Type := {
  limit_enabled : bool;
  perKeyLimitCount : nat
}.

Record DailyFeatureMetricsReportJson : Type := {
  daily_serverId : string;
  serverVersion : string;
  timestampUtcMs : Number;
  dataLimit : DailyDataLimitMetricsReportJson
}.

(** The fields of [ServerConfigJson] and [AccessKeyConfigJson] that the
    publisher reads or writes; a data limit is an object, present or
    not. *)
Record ServerConfigJson : Type := {
  serverId : string;
  metricsEnabled : option bool;
  accessKeyDataLimit : option Number
}.

Record AccessKeyJson : Type := {
  key_id : string;
  key_dataLimit : option Number
}.

(** The options and the response of an HTTP request. *)
Record RequestOptions : Type := {
  options_headers : list (string * string);
  options_method : string;
  options_body : string
}.

Record HttpResponse : Type := {
  response_ok : bool;
  response_status : Z
}.

Inductive MetricsCall : Type :=
| clock_now
| usageMetrics_getCountryUsage
| usageMetrics_reset
| collectServerUsageMetrics (reportJson : HourlyServerMetricsReportJson)
| collectFeatureMetrics (reportJson : DailyFeatureMetricsReportJson)
| serverConfig_write (data : ServerConfigJson)
| keyConfig_accessKeys
| getPackageVersion
| logging_error (message : string)
| logging_debug (message : string)
| requestFollowRedirectsWithSameMethodAndBody (url : string)
    (options : RequestOptions).

Definition MetricsReply (c : MetricsCall) : Type :=
  match c with
  | clock_now => Number
  | usageMetrics_getCountryUsage => list CountryUsage
  | keyConfig_accessKeys => list AccessKeyJson
  | getPackageVersion => string
  | requestFollowRedirectsWithSameMethodAndBody _ _ => HttpResponse
  | usageMetrics_reset | collectServerUsageMetrics _
  | collectFeatureMetrics _ | serverConfig_write _ | logging_error _
  | logging_debug _ => unit
  end.

(** The publisher's field and the data object of the server
    configuration. *)
Record Memory : Type := {
  reportStartTimestampMs : Number;
  serverConfigData : ServerConfigJson
}.

(** A method of the publisher: requests whose outcome (response or
    exception) reaches the continuation, reads and writes of memory. *)
Inductive Job (A : Type) : Type :=
| Finish (a : A)
| Raise (e : Js.Error)
| Request (c : MetricsCall) (k : Js.Error + MetricsReply c -> Job A)
| Load (k : Memory -> Job A)
| Store (m : Memory) (k : Job A).

Arguments Finish {A} a.
Arguments Raise {A} e.
Arguments Request {A} c k.
Arguments Load {A} k.
Arguments Store {A} m k.

Fixpoint andThen {A B : Type} (job : Job A) (f : A -> Job B) : Job B :=
  match job with
  | Finish a => f a
  | Raise e => Raise e
  | Request c k => Request c (fun r => andThen (k r) f)
  | Load k => Load (fun m => andThen (k m) f)
  | Store m k => Store m (andThen k f)
  end.

(** A call of a collaborator: an exception it throws, or the rejection
    of the promise it returns, is thrown at the call. *)
Definition perform_ (c : MetricsCall) : Job (MetricsReply c) :=
  Request c (fun r => match r with inl e => Raise e | inr v => Finish v end).

(** [try { body } catch (err) { handler(err) }]. *)
Fixpoint tryCatch {A : Type} (body : Job A) (handler : Js.Error -> Job A)
    : Job A :=
  match body with
  | Finish a => Finish a
  | Raise e => handler e
  | Request c k => Request c (fun r => tryCatch (k r) handler)
  | Load k => Load (fun m => tryCatch (k m) handler)
  | Store m k => Store m (tryCatch k handler)
  end.

Inductive MetricsEvent : Type :=
| Performed (c : MetricsCall) (r : Js.Error + MetricsReply c).

Record Collaborators (St : Type) : Type := {
  serve : forall c : MetricsCall, St -> (Js.Error + MetricsReply c) * St
}.

Arguments serve {St} _ c _.

Fixpoint execute {St A : Type} (world : Collaborators St) (job : Job A)
    (m : Memory) (s : St)
    : (Js.Error + A) * Memory * St * list MetricsEvent :=
  match job with
  | Finish a => (inr a, m, s, [])
  | Raise e => (inl e, m, s, [])
  | Request c k =>
      let '(r, s1) := serve world c s in
      let '(o, m2, s2, t) := execute world (k r) m s1 in
      (o, m2, s2, Performed c r :: t)
  | Load k => execute world (k m) m s
  | Store m' k => execute world k m' s
  end.

(** [`${err}`] for an error object. *)
Definition errorString (e : Js.Error) : string :=
  match e with
  | Js.TypeError message => "TypeError: " +:+ message
  | Js.RequestFailed message => "Error: " +:+ message
  end.

Definition MS_PER_HOUR : Z := 60 * 60 * 1000.
Definition MS_PER_DAY : Z := 24 * MS_PER_HOUR.
Definition SANCTIONED_COUNTRIES : list string := ["CU"; "KP"; "SY"].

Definition isSanctionedCountry (country : string) : bool :=
  bool_decide (country ∈ SANCTIONED_COUNTRIES).

Definition startSharing : Job unit :=
  Load (fun m =>
  Store {| reportStartTimestampMs := reportStartTimestampMs m;
           serverConfigData :=
             {| serverId := serverId (serverConfigData m);
                metricsEnabled := Some true;
                accessKeyDataLimit :=
                  accessKeyDataLimit (serverConfigData m) |} |}
    (Load (fun m' => perform_ (serverConfig_write (serverConfigData m'))))).

Definition stopSharing : Job unit :=
  Load (fun m =>
  Store {| reportStartTimestampMs := reportStartTimestampMs m;
           serverConfigData :=
             {| serverId := serverId (serverConfigData m);
                metricsEnabled := Some false;
                accessKeyDataLimit :=
                  accessKeyDataLimit (serverConfigData m) |} |}
    (Load (fun m' => perform_ (serverConfig_write (serverConfigData m'))))).

Definition isSharingEnabled : Job bool :=
  Load (fun m =>
  Finish (default false (metricsEnabled (serverConfigData m)))).

(** The [for ... of] loop of [reportServerUsageMetrics] that fills
    [userReports]. *)
Fixpoint reportServerUsageMetrics_userReports
    (countryUsageMetrics : list CountryUsage)
    : list HourlyUserMetricsReportJson :=
  match countryUsageMetrics with
  | [] => []
  | countryUsage :: rest =>
      if isZero (inboundBytes countryUsage) then
        reportServerUsageMetrics_userReports rest
      else if isSanctionedCountry (country countryUsage) then
        reportServerUsageMetrics_userReports rest
      else
        let country_ :=
          if String.eqb (country countryUsage) EmptyString then "ZZ"
          else country countryUsage in
        {| countries := [country_];
           bytesTransferred := inboundBytes countryUsage |}
        :: reportServerUsageMetrics_userReports rest
  end.

Definition reportServerUsageMetrics
    (countryUsageMetrics : list CountryUsage) : Job unit :=
  andThen (perform_ clock_now) (fun reportEndTimestampMs =>
  let userReports_ :=
    reportServerUsageMetrics_userReports countryUsageMetrics in
  Load (fun m =>
  let report :=
    {| hourly_serverId := serverId (serverConfigData m);
       startUtcMs := reportStartTimestampMs m;
       endUtcMs := reportEndTimestampMs;
       userReports := userReports_ |} in
  Store {| reportStartTimestampMs := reportEndTimestampMs;
           serverConfigData := serverConfigData m |}
    (if Nat.eqb (length userReports_) 0 then Finish tt
     else perform_ (collectServerUsageMetrics report)))).

Definition reportFeatureMetrics : Job unit :=
  andThen (perform_ keyConfig_accessKeys) (fun keys =>
  Load (fun m =>
  andThen (perform_ getPackageVersion) (fun version =>
  andThen (perform_ clock_now) (fun now =>
  Load (fun m' =>
  let featureMetricsReport :=
    {| daily_serverId := serverId (serverConfigData m);
       serverVersion := version;
       timestampUtcMs := now;
       dataLimit :=
         {| limit_enabled :=
              bool_decide (is_Some (accessKeyDataLimit (serverConfigData m')));
            perKeyLimitCount :=
              length
                (List.filter
                   (fun key => bool_decide (is_Some (key_dataLimit key)))
                   keys) |} |} in
  perform_ (collectFeatureMetrics featureMetricsReport)))))).

(** The callback of the hourly interval. *)
Definition hourlyCallback : Job unit :=
  andThen isSharingEnabled (fun sharing =>
  if negb sharing then Finish tt
  else
    tryCatch
      (andThen (perform_ usageMetrics_getCountryUsage) (fun usage =>
       andThen (reportServerUsageMetrics usage) (fun _ =>
       perform_ usageMetrics_reset)))
      (fun err =>
         perform_
           (logging_error
              ("Failed to report server usage metrics: "
               +:+ errorString err)))).

(** The callback of the daily interval. *)
Definition dailyCallback : Job unit :=
  andThen isSharingEnabled (fun sharing =>
  if negb sharing then Finish tt
  else
    tryCatch reportFeatureMetrics
      (fun err =>
         perform_
           (logging_error
              ("Failed to report feature metrics: " +:+ errorString err)))).

(** [JSON.stringify] of the request options, as the debug message
    prints them. *)
Variable stringifyOptions : RequestOptions -> string.

(** [RestMetricsCollectorClient.postMetrics]. *)
Definition postMetrics (serviceUrl urlPath reportJson : string) : Job unit :=
  let options :=
    {| options_headers := [("Content-Type", "application/json")];
       options_method := "POST";
       options_body := reportJson |} in
  let url := serviceUrl +:+ urlPath in
  andThen
    (perform_
       (logging_debug
          ("Posting metrics to " +:+ url +:+ " with options "
           +:+ stringifyOptions options)))
    (fun _ =>
  tryCatch
    (andThen (perform_ (requestFollowRedirectsWithSameMethodAndBody url options))
       (fun response =>
          if negb (response_ok response) then
            Raise
              (Js.RequestFailed
                 ("Got status "
                  +:+ Js.numberToString (response_status response)))
          else Finish tt))
    (fun e =>
       Raise
         (Js.RequestFailed
            ("Failed to post to metrics server: " +:+ errorString e)))).

End MetricsModel.

Arguments Finish {Number A} a.
Arguments Raise {Number A} e.
Arguments Request {Number A} c k.
Arguments Load {Number A} k.
Arguments Store {Number A} m k.
Arguments serve {Number St} _ c _.

(** A simulated hour: the clock advances by an hour at each reading,
    three countries have used the server (one of them sanctioned, one
    without traffic, one unknown), and the collector accepts or rejects
    every report. *)
Definition simUsage : list (@CountryUsage Z) :=
  [ {| country := "CU"; inboundBytes := 1000 |};
    {| country := "DE"; inboundBytes := 0 |};
    {| country := EmptyString; inboundBytes := 2048 |};
    {| country := "FR"; inboundBytes := 512 |} ].

Definition simWorld (collectorUp : bool) (usage : list (@CountryUsage Z))
    : Collaborators Z :=
  {| serve := fun c now =>
       match c as c0 return (Js.Error + MetricsReply c0) * Z with
       | clock_now => (inr (now + MS_PER_HOUR), now + MS_PER_HOUR)
       | usageMetrics_getCountryUsage => (inr usage, now)
       | usageMetrics_reset => (inr tt, now)
       | collectServerUsageMetrics _ =>
           (if collectorUp then inr tt
            else inl (Js.RequestFailed
                        "Failed to post to metrics server: Error: Got status 500"),
            now)
       | collectFeatureMetrics _ =>
           (if collectorUp then inr tt
            else inl (Js.RequestFailed
                        "Failed to post to metrics server: Error: Got status 500"),
            now)
       | serverConfig_write _ => (inr tt, now)
       | keyConfig_accessKeys =>
           (inr [ {| key_id := "0"; key_dataLimit := Some 1000000 |};
                  {| key_id := "1"; key_dataLimit := None |} ], now)
       | getPackageVersion => (inr "1.6.1", now)
       | logging_error _ => (inr tt, now)
       | logging_debug _ => (inr tt, now)
       | requestFollowRedirectsWithSameMethodAndBody _ _ =>
           (inr {| response_ok := collectorUp;
                   response_status := if collectorUp then 200 else 500 |},
            now)
       end |}.

Definition simMemory (sharing : option bool) : @Memory Z :=
  {| reportStartTimestampMs := 0;
     serverConfigData :=
       {| serverId := "server-1";
          metricsEnabled := sharing;
          accessKeyDataLimit := None |} |}.

(** The request of an event of the publisher. *)
Definition performedCall {Number : Type} (ev : @MetricsEvent Number)
    : @MetricsCall Number :=
  match ev with
  | Performed c _ => c
  end.

(** The country a usage entry is reported under. *)
Definition reportedCountry {Number : Type} (entry : @CountryUsage Number)
    : string :=
  if String.eqb (country entry) EmptyString then "ZZ" else country entry.

(** The report of an hour of usage. *)
Definition hourlyReport {Number : Type} (isZero : Number -> bool)
    (m : @Memory Number) (now : Number) (usage : list (@CountryUsage Number))
    : @HourlyServerMetricsReportJson Number :=
  {| hourly_serverId := serverId (serverConfigData m);
     startUtcMs := reportStartTimestampMs m;
     endUtcMs := now;
     userReports := reportServerUsageMetrics_userReports isZero usage |}.

(** The memory after a report that ended at [now]. *)
Definition afterReport {Number : Type} (m : @Memory Number) (now : Number)
    : @Memory Number :=
  {| reportStartTimestampMs := now;
     serverConfigData := serverConfigData m |}.

(** The memory after sharing has been switched. *)
Definition withSharing {Number : Type} (m : @Memory Number) (sharing : bool)
    : @Memory Number :=
  {| reportStartTimestampMs := reportStartTimestampMs m;
     serverConfigData :=
       {| serverId := serverId (serverConfigData m);
          metricsEnabled := Some sharing;
          accessKeyDataLimit := accessKeyDataLimit (serverConfigData m) |} |}.

(** The options [postMetrics] sends a report with. *)
Definition postOptions (reportJson : string) : RequestOptions :=
  {| options_headers := [("Content-Type", "application/json")];
     options_method := "POST";
     options_body := reportJson |}.

(* ================================================================= *)
(** * Properties *)

(** ** Instance names *)

Section InstanceNames.

(** The seconds of a time value fix every field the name is built
    from, as long as the zone adjustment is a whole number of seconds. *)
Lemma fields_same_second tv1 tv2 tza :
  tza mod 1000 = 0 ->
  tv1 / 1000 = tv2 / 1000 ->
  Date.Day (tv1 + tza) = Date.Day (tv2 + tza)
  ∧ Date.HourFromTime tv1 = Date.HourFromTime tv2
  ∧ Date.MinFromTime tv1 = Date.MinFromTime tv2
  ∧ Date.SecFromTime tv1 = Date.SecFromTime tv2.
Proof.
  intros Htza Hsec.
  assert (Hdiv : ∀ k x, 0 < k -> x / (1000 * k) = x / 1000 / k).
  { intros k x Hk. rewrite Z.div_div by lia. reflexivity. }
  assert (Hshift : (tv1 + tza) / 1000 = (tv2 + tza) / 1000).
  { apply Z.mod_divide in Htza; [|lia]. destruct Htza as [q ->].
    rewrite !Z.div_add by lia. lia. }
  unfold Date.Day, Date.HourFromTime, Date.MinFromTime, Date.SecFromTime,
    Date.msPerDay, Date.msPerHour, Date.msPerMinute, Date.msPerSecond.
  change 86400000 with (1000 * 86400).
  change 3600000 with (1000 * 3600).
  change 60000 with (1000 * 60).
  rewrite !Hdiv by lia. rewrite Hshift, Hsec. auto.
Qed.

(** Two calls within the same second get the same name. *)
Lemma makeInstanceName_same_second tv1 tv2 tza :
  tza mod 1000 = 0 ->
  tv1 / 1000 = tv2 / 1000 ->
  makeInstanceName (Date.mk tv1 tza) = makeInstanceName (Date.mk tv2 tza).
Proof.
  intros Htza Hsec.
  destruct (fields_same_second tv1 tv2 tza Htza Hsec) as (Hd & Hh & Hm & Hs).
  unfold makeInstanceName, Date.getFullYear, Date.getMonth, Date.getDate,
    Date.getUTCHours, Date.getUTCMinutes, Date.getUTCSeconds,
    Date.YearFromTime, Date.MonthFromTime, Date.DateFromTime, Date.LocalTime.
  cbn [Date.timeValue Date.localTZA].
  rewrite Hd, Hh, Hm, Hs. reflexivity.
Qed.

(** Names also coincide across days: 12 February and 2 December 2021,
    both at 04:07:09 UTC. *)
Lemma makeInstanceName_collides_across_days :
  makeInstanceName (Date.mk 1613102829000 0)
  = makeInstanceName (Date.mk 1638418029000 0)
  ∧ specInstanceName (Date.mk 1613102829000 0) = "outline-20210212-040709"
  ∧ specInstanceName (Date.mk 1638418029000 0) = "outline-20211202-040709".
Proof. vm_compute. auto. Qed.

(** C3 (evaluation at the failing input). On 2021-03-05T04:07:09Z the
    generated name is [outline-202125-479]: the month is the zero-based
    index and no field is padded, so the name does not have the shape
    [outline-YYYYMMDD-HHMMSS] and differs from the name of the
    specification for that second. *)
Theorem makeInstanceName_not_padded :
  makeInstanceName (Date.mk 1614917229000 0) = "outline-202125-479"
  ∧ specInstanceName (Date.mk 1614917229000 0) = "outline-20210305-040709"
  ∧ matchesNamePattern (makeInstanceName (Date.mk 1614917229000 0)) = false
  ∧ matchesNamePattern (specInstanceName (Date.mk 1614917229000 0)) = true.
Proof. vm_compute. auto. Qed.

End InstanceNames.

(** ** Strings *)

Section Strings.

Lemma lastIndexFrom_None c i s :
  Js.lastIndexFrom c i s = None -> occurs c s = false.
Proof.
  revert i. induction s as [|a rest IH]; intros i; cbn; [reflexivity|].
  destruct (Js.lastIndexFrom c (i + 1) rest) eqn:Hrest; [discriminate|].
  destruct (Ascii.eqb a c); [discriminate|]. intros _. eauto.
Qed.

Lemma lastIndexFrom_Some c i s j :
  Js.lastIndexFrom c i s = Some j ->
  ∃ front back,
    s = front +:+ String c back
    ∧ j = i + Z.of_nat (String.length front)
    ∧ occurs c back = false.
Proof.
  revert i j. induction s as [|a rest IH]; intros i j; cbn; [discriminate|].
  destruct (Js.lastIndexFrom c (i + 1) rest) as [j'|] eqn:Hrest.
  - intros [= <-]. destruct (IH _ _ Hrest) as (front & back & -> & -> & Hback).
    exists (String a front), back. cbn. repeat split; [lia | assumption].
  - destruct (Ascii.eqb_spec a c) as [->|]; [|discriminate].
    intros [= <-]. exists EmptyString, rest. cbn.
    repeat split; [lia | eauto using lastIndexFrom_None].
Qed.

Lemma drop_front front c back :
  Js.drop (String.length front + 1) (front +:+ String c back) = back.
Proof. induction front as [|a front IH]; cbn; auto. Qed.

(** [s.substring(s.lastIndexOf('/') + 1)] is what follows the last
    slash. *)
Lemma substring_lastIndexOf_slash s :
  suffixAfterLastSlash s (Js.substring (Js.lastIndexOf "/" s + 1) s).
Proof.
  unfold suffixAfterLastSlash, Js.substring, Js.lastIndexOf.
  destruct (Js.lastIndexFrom "/" 0 s) as [j|] eqn:Hlast.
  - destruct (lastIndexFrom_Some _ _ _ _ Hlast)
      as (front & back & -> & -> & Hback).
    replace (Z.to_nat (0 + Z.of_nat (String.length front) + 1))
      with (String.length front + 1)%nat by lia.
    rewrite drop_front. split; [assumption|]. right. exists front.
    reflexivity.
  - apply lastIndexFrom_None in Hlast. cbn. auto.
Qed.

Lemma zoneRegionKey_suffix zone :
  suffixAfterLastSlash (zone_region zone) (zoneRegionKey zone).
Proof. apply substring_lastIndexOf_slash. Qed.

End Strings.

(** ** Running processes *)

(** Case analysis on the run that the goal is waiting for. *)
Tactic Notation "destruct_run" "as" simple_intropattern(pat)
    "eqn" ":" ident(H) :=
  match goal with
  | |- context [run ?e ?p ?st] => destruct (run e p st) as pat eqn:H
  end.

Section Runs.

Context {St : Type} (env : Env St).

Lemma run_bind {A B : Type} (p : Proc A) (f : A -> Proc B) (s : St) :
  run env (bind p f) s =
  match run env p s with
  | (Returned a, s1, t1) =>
      let '(o, s2, t2) := run env (f a) s1 in (o, s2, t1 ++ t2)
  | (Raised e, s1, t1) => (Raised e, s1, t1)
  | (Polling, s1, t1) => (Polling, s1, t1)
  end.
Proof.
  revert s. induction p as [a|e|c k IH|ms k IH|k IH|]; intros s; cbn.
  - destruct (run env (f a) s) as [[o s2] t2]. reflexivity.
  - reflexivity.
  - destruct (request env c s) as [[e|v] s1]; [reflexivity|].
    rewrite IH. destruct (run env (k v) s1) as [[[a|e|] s2] t]; cbn;
      [|reflexivity..].
    destruct (run env (f a) s2) as [[o s3] t3]. reflexivity.
  - rewrite IH. destruct (run env k (elapse env ms s)) as [[[a|e|] s2] t];
      cbn; [|reflexivity..].
    destruct (run env (f a) s2) as [[o s3] t3]. reflexivity.
  - apply IH.
  - reflexivity.
Qed.

Lemma run_call (c : ApiCall) (s : St) :
  run env (call c) s =
  match request env c s with
  | (inl e, s1) => (Raised e, s1, [Called c (inl e)])
  | (inr v, s1) => (Returned v, s1, [Called c (inr v)])
  end.
Proof. cbn. destruct (request env c s) as [[e|v] s1]; reflexivity. Qed.

(** A polling loop that is left has seen the operation done in its
    last response. *)
Lemma whileNotDone_returned (body : Proc Operation)
    (query : Operation -> Event) :
  (∀ s op s' t,
      run env body s = (Returned op, s', t) ->
      t = [Slept (2 * 1000); query op]) ->
  ∀ fuel s result s' trace,
    run env (whileNotDone fuel body None) s = (Returned result, s', trace) ->
    ∃ op, result = Some op ∧ Polled query trace op.
Proof.
  intros Hbody fuel.
  assert (Hgen : ∀ op0 s result s' trace,
    from_option op_done false op0 = false ->
    run env (whileNotDone fuel body op0) s = (Returned result, s', trace) ->
    ∃ op, result = Some op ∧ Polled query trace op).
  { induction fuel as [|fuel IH]; intros op0 s result s' trace Hnot; cbn;
      rewrite Hnot; [discriminate|].
    rewrite run_bind.
    destruct (run env body s) as [[[op1|e|] s1] t1] eqn:Hrun;
      [|discriminate..].
    apply Hbody in Hrun as ->.
    destruct (op_done op1) eqn:Hdone.
    - destruct fuel; cbn; rewrite Hdone; cbn; intros [= <- <- <-];
        exists op1; split; auto; by constructor.
    - destruct (run env (whileNotDone fuel body (Some op1)) s1)
        as [[o2 s2] t2] eqn:Hrest.
      intros [= -> <- <-].
      destruct (IH (Some op1) _ _ _ _ Hdone Hrest) as (op & -> & Hpolled).
      exists op. split; [reflexivity|]. cbn. by constructor. }
  intros s result s' trace. by apply Hgen.
Qed.

End Runs.

(** ** Listing locations *)

Section Locations.

Lemma listed_empty zones : listed zones ∅.
Proof. intros key names zoneName Hkey. by rewrite lookup_empty in Hkey. Qed.

Lemma listed_more zones zone result :
  listed zones result -> listed (zones ++ [zone]) result.
Proof.
  intros H key names zoneName Hkey Hin.
  destruct (H key names zoneName Hkey Hin) as (z & Hz & Hrest).
  exists z. split; [set_solver | assumption].
Qed.

Lemma listed_fresh_key zones key result :
  listed zones result -> listed zones (<[key := []]> result).
Proof.
  intros H key' names zoneName Hkey Hin.
  destruct (decide (key = key')) as [->|Hne].
  - rewrite lookup_insert_eq in Hkey. injection Hkey as <-. set_solver.
  - rewrite lookup_insert_ne in Hkey by assumption. eauto.
Qed.

(** One round of the callback keeps the invariant. *)
Lemma listLocations_zone_listed zones zone result result' :
  listed zones result ->
  listLocations_zone result zone = inr result' ->
  listed (zones ++ [zone]) result'.
Proof.
  intros Hlisted. unfold listLocations_zone. fold (zoneRegionKey zone).
  set (result1 := if negb (hasProperty (zoneRegionKey zone) result)
                  then <[zoneRegionKey zone := []]> result else result).
  assert (H1 : listed (zones ++ [zone]) result1).
  { apply listed_more. subst result1.
    destruct (negb _); auto using listed_fresh_key. }
  destruct (String.eqb_spec (zone_status zone) "UP") as [Hup|_].
  - destruct (result1 !! zoneRegionKey zone) as [names|] eqn:Hnames;
      [|discriminate].
    intros [= <-] key names' zoneName Hkey Hin.
    destruct (decide (zoneRegionKey zone = key)) as [<-|Hne].
    + rewrite lookup_insert_eq in Hkey. injection Hkey as <-.
      apply elem_of_app in Hin as [Hin|Hin].
      * eauto.
      * apply list_elem_of_singleton in Hin as ->.
        exists zone. split; [set_solver | auto].
    + rewrite lookup_insert_ne in Hkey by assumption. eauto.
  - by intros [= <-].
Qed.

Lemma listLocations_zones_listed rest :
  ∀ seen result result',
    listed seen result ->
    listLocations_zones rest result = inr result' ->
    listed (seen ++ rest) result'.
Proof.
  induction rest as [|zone rest IH]; intros seen result result' Hlisted; cbn.
  - intros [= <-]. by rewrite app_nil_r.
  - destruct (listLocations_zone result zone) as [e|result1] eqn:Hzone;
      [discriminate|].
    intros Hrest. replace (seen ++ zone :: rest) with ((seen ++ [zone]) ++ rest)
      by (rewrite <- app_assoc; reflexivity).
    eauto using listLocations_zone_listed.
Qed.

(** The walk over the zones only fails on a key that an object literal
    inherits. *)
Lemma listLocations_zones_total zones :
  ∀ result,
    (∀ zone, zone ∈ zones -> zone_status zone = "UP" ->
             zoneRegionKey zone ∉ Js.objectPrototypeKeys) ->
    ∃ result', listLocations_zones zones result = inr result'.
Proof.
  induction zones as [|zone zones IH]; intros result Hkeys; cbn; [eauto|].
  assert (Hstep : ∃ result1, listLocations_zone result zone = inr result1).
  { unfold listLocations_zone. fold (zoneRegionKey zone).
    destruct (String.eqb_spec (zone_status zone) "UP") as [Hup|_]; [|eauto].
    unfold hasProperty.
    rewrite (bool_decide_eq_false_2
               (zoneRegionKey zone ∈ Js.objectPrototypeKeys))
      by (apply Hkeys; [set_solver | assumption]).
    rewrite orb_false_r.
    destruct (result !! zoneRegionKey zone) as [names|] eqn:Hnames.
    - rewrite bool_decide_eq_true_2 by eauto. cbn. rewrite Hnames. eauto.
    - rewrite bool_decide_eq_false_2 by (intros [? ?]; congruence). cbn.
      rewrite lookup_insert_eq. eauto. }
  destruct Hstep as [result1 ->]. apply IH. intros z Hz. apply Hkeys.
  set_solver.
Qed.

Context {St : Type} (env : Env St).

(** C7. Whatever zones the provider lists, every zone name in the map
    that [listLocations] returns is the name of a listed zone whose
    status is [UP], and the key it stands under is what follows the
    last slash of that zone's region URL. The map is returned whenever
    no [UP] zone has a region key that object literals inherit. *)
Theorem listLocations_up_zones_by_region
    (s : St) (projectId : string) (response : ListZonesResponse) (s1 : St) :
  request env (listZones projectId) s = (inr response, s1) ->
  (∀ result s' trace key names zoneName,
      run env (listLocations projectId) s = (Returned result, s', trace) ->
      result !! key = Some names ->
      zoneName ∈ names ->
      ∃ zone,
        zone ∈ default [] (zones_items response)
        ∧ zone_name zone = zoneName
        ∧ zone_status zone = "UP"
        ∧ key = zoneRegionKey zone
        ∧ suffixAfterLastSlash (zone_region zone) key)
  ∧ ((∀ zone, zone ∈ default [] (zones_items response) ->
              zone_status zone = "UP" ->
              zoneRegionKey zone ∉ Js.objectPrototypeKeys) ->
     ∃ result,
       run env (listLocations projectId) s
       = (Returned result, s1, [Called (listZones projectId) (inr response)])).
Proof.
  intros Hreq. unfold listLocations. cbn. rewrite Hreq. split.
  - intros result s' trace key names zoneName.
    destruct (listLocations_zones _ ∅) as [e|result0] eqn:Hwalk; cbn;
      [discriminate|].
    intros [= <- <- <-] Hkey Hin.
    pose proof (listLocations_zones_listed _ [] ∅ result0
                  (listed_empty []) Hwalk) as Hlisted.
    destruct (Hlisted key names zoneName Hkey Hin)
      as (zone & Hzone & Hname & Hup & <-).
    exists zone. repeat split; auto; apply zoneRegionKey_suffix.
  - intros Hkeys.
    destruct (listLocations_zones_total _ ∅ Hkeys) as [result ->]. cbn. eauto.
Qed.

End Locations.

Lemma listLocations_witness :
  ∃ zone,
    zone ∈ default [] (sc_zones calmScenario)
    ∧ zone_name zone = "europe-west1-b"
    ∧ zone_status zone = "UP"
    ∧ "europe-west1" = zoneRegionKey zone
    ∧ suffixAfterLastSlash (zone_region zone) "europe-west1".
Proof.
  refine (proj1 (listLocations_up_zones_by_region
                   (simEnv calmScenario) freshCloud "proj-1" _ _ eq_refl)
            _ _ _ "europe-west1" ["europe-west1-b"] "europe-west1-b"
            eq_refl _ _).
  - vm_compute. reflexivity.
  - set_solver.
Defined.

(** ** Project health *)

Section Health.

Lemma find_service_configured enabled required :
  configured enabled ->
  ∃ found,
    find_service required enabled = inr found
    ∧ (found = None <-> required ∉ enabledNames enabled).
Proof.
  unfold configured, enabledNames.
  induction enabled as [|service enabled IH]; intros Hall.
  - exists None. split; [reflexivity|]. split; [set_solver | reflexivity].
  - apply Forall_cons in Hall as [[config Hconfig] Hall].
    destruct (IH Hall) as (found & Hfind & Hfound).
    cbn. rewrite Hconfig. cbn.
    destruct (String.eqb_spec (config_name config) required) as [->|Hne].
    + eexists. split; [reflexivity|]. split; [discriminate | set_solver].
    + exists found. split; [assumption|]. rewrite Hfound. set_solver.
Qed.

Context {St : Type} (env : Env St).

(** The loop over a response that has its list of configured services
    answers a boolean, [false] exactly when a required service is
    missing from the list, without any request. *)
Lemma isProjectHealthy_required_listed
    (response : ListEnabledServicesResponse) (enabled : list Service)
    (required : list string) (s : St) :
  services response = Some enabled ->
  configured enabled ->
  ∃ healthy,
    run env (isProjectHealthy_required response required) s
    = (Returned healthy, s, [])
    ∧ (healthy = false
       <-> ∃ service, service ∈ required ∧ service ∉ enabledNames enabled).
Proof.
  intros Hlist Hall.
  induction required as [|service required IH]; cbn [isProjectHealthy_required].
  - exists true. split; [reflexivity|]. split; [discriminate | set_solver].
  - rewrite Hlist.
    destruct (find_service_configured enabled service Hall)
      as (found & -> & Hfound).
    destruct found as [found|].
    + destruct IH as (healthy & Hrun & Hiff). exists healthy.
      split; [assumption|]. rewrite Hiff.
      assert (Hin : service ∈ enabledNames enabled).
      { destruct (decide (service ∈ enabledNames enabled)) as [Hin|Hmiss];
          [assumption|].
        by apply Hfound in Hmiss. }
      split.
      * intros (r & Hr & Hmiss). exists r. set_solver.
      * intros (r & Hr & Hmiss). exists r.
        apply elem_of_cons in Hr as [->|Hr]; [contradiction | auto].
    + exists false. split; [reflexivity|]. split; [|reflexivity].
      intros _. exists service. split; [set_solver|]. by apply Hfound.
Qed.

(** With billing enabled and an enabled-services response that has no
    [services] member, [isProjectHealthy] raises a [TypeError] after
    the two queries. *)
Lemma isProjectHealthy_without_services
    (s : St) (projectId : string)
    (info : ProjectBillingInfo) (s1 : St)
    (response : ListEnabledServicesResponse) (s2 : St) :
  request env (getProjectBillingInfo projectId) s = (inr info, s1) ->
  billingEnabled info = true ->
  request env (listEnabledServices projectId) s1 = (inr response, s2) ->
  services response = None ->
  ∃ message,
    run env (isProjectHealthy projectId) s
    = (Raised (Js.TypeError message), s2,
       [ Called (getProjectBillingInfo projectId) (inr info);
         Called (listEnabledServices projectId) (inr response) ]).
Proof.
  intros Hbilling Henabled Hservices Hnone. unfold isProjectHealthy.
  cbn. rewrite Hbilling. cbn. rewrite Henabled. cbn.
  rewrite Hservices. cbn. rewrite Hnone. cbn. eexists. reflexivity.
Qed.

End Health.

(** C4. A project with billing enabled and no enabled service, whose
    enabled-services response comes without a [services] member: the
    required service [compute.googleapis.com] is missing, yet
    [isProjectHealthy] does not answer [false]; it raises a [TypeError]
    after the two queries. *)
Theorem isProjectHealthy_throws_without_services :
  (∃ message,
     run (simEnv bareProjectScenario) (isProjectHealthy "proj-1") freshCloud
     = (Raised (Js.TypeError message), freshCloud,
        [ Called (getProjectBillingInfo "proj-1")
            (inr {| billingEnabled := true |});
          Called (listEnabledServices "proj-1")
            (inr {| services := None |}) ]))
  ∧ "compute.googleapis.com" ∈ REQUIRED_GCP_SERVICES
  ∧ ∀ s' trace,
      run (simEnv bareProjectScenario) (isProjectHealthy "proj-1") freshCloud
      ≠ (Returned false, s', trace).
Proof.
  destruct (isProjectHealthy_without_services (simEnv bareProjectScenario)
              freshCloud "proj-1" _ _ _ _ eq_refl eq_refl eq_refl eq_refl)
    as [message Hrun].
  split; [by exists message|]. split; [set_solver|].
  intros s' trace. rewrite Hrun. discriminate.
Qed.

(** ** Promoting the ephemeral address *)

Section Promotion.

Context {St : Type} (env : Env St).
Variable getRegionId : string -> string.

(** C9. For an instance whose first network interface has a first
    access configuration with an address, [promoteEphemeralIpIfNeeded]
    fetches the instance and then issues one reservation request whose
    address is that address; these are its only two requests. *)
Theorem promoteEphemeralIp_reserves_address
    (s : St) (locator : InstanceLocator) (instance : Instance) (s1 : St)
    (interface : NetworkInterface) (interfaces : list NetworkInterface)
    (config : AccessConfig) (configs : list AccessConfig) (ip : string)
    (answer : Js.Error + Operation) (s2 : St) :
  request env (getInstance locator) s = (inr instance, s1) ->
  networkInterfaces instance = interface :: interfaces ->
  accessConfigs interface = config :: configs ->
  natIP config = Some ip ->
  request env
    (createStaticIp (projectId locator) (getRegionId (zoneId locator))
       (createStaticIpData instance (Some ip))) s1
  = (answer, s2) ->
  ∃ outcome,
    run env (promoteEphemeralIpIfNeeded getRegionId locator) s
    = (outcome, s2,
       [ Called (getInstance locator) (inr instance);
         Called
           (createStaticIp (projectId locator)
              (getRegionId (zoneId locator))
              (createStaticIpData instance (Some ip)))
           answer ])
    ∧ ip_address (createStaticIpData instance (Some ip)) = Some ip
    ∧ (outcome = match answer with
                 | inl e => Raised e
                 | inr _ => Returned tt
                 end)
    ∧ countCalls isCreateStaticIp
        [ Called (getInstance locator) (inr instance);
          Called
            (createStaticIp (projectId locator)
               (getRegionId (zoneId locator))
               (createStaticIpData instance (Some ip)))
            answer ] = 1%nat.
Proof.
  intros Hget Hnics Hconfigs Hip Hreserve.
  unfold promoteEphemeralIpIfNeeded. cbn. rewrite Hget, Hnics. cbn.
  rewrite Hconfigs. cbn. rewrite Hip, Hreserve.
  destruct answer as [e|op].
  - eexists. repeat split.
  - destruct (op_error op ≫= errors); cbn; eexists; repeat split.
Qed.

End Promotion.

(** ** Configuring a project *)

Section Configuration.

Context {St : Type} (env : Env St).

Lemma run_poll_body name s :
  run env (A := Operation)
    (Sleep (A := Operation) (2 * 1000)
       (call (serviceUsageOperationGet name))) s =
  match request env (serviceUsageOperationGet name)
          (elapse env (2 * 1000) s) with
  | (inl e, s1) =>
      (Raised e, s1,
       [Slept (2 * 1000); Called (serviceUsageOperationGet name) (inl e)])
  | (inr op, s1) =>
      (Returned op, s1, [Slept (2 * 1000); polledServiceUsage name op])
  end.
Proof.
  cbn. destruct (request env _ _) as [[e|op] s1]; reflexivity.
Qed.

(** Whatever the outcome, the loop only sleeps and polls. *)
Lemma whileNotDone_events name fuel :
  ∀ op0 s o s' trace,
    run env
      (whileNotDone fuel
         (Sleep (2 * 1000) (call (serviceUsageOperationGet name))) op0) s
    = (o, s', trace) ->
    Forall (pollEvent name) trace.
Proof.
  induction fuel as [|fuel IH]; intros op0 s o s' trace; cbn [whileNotDone];
    destruct (from_option op_done false op0);
    try (intros [= <- <- <-]; constructor).
  rewrite run_bind, run_poll_body.
  destruct (request env _ _) as [[e|op] s1].
  - intros [= <- <- <-].
    apply Forall_cons; split; [by left|].
    apply Forall_cons; split; [by right | constructor].
  - destruct_run as [[o2 s2] t2] eqn:Hrest.
    intros [= <- <- <-]. apply IH in Hrest.
    apply Forall_cons; split; [by left|].
    apply Forall_cons; split; [by right | assumption].
Qed.

(** C8. [repairProject] is [configureProject], and every run of it
    starts with the billing-link request; service enablement is
    requested only once that request has been answered, directly after
    it; what follows are only sleeps and polls of the enablement
    operation; and when the method returns, the polls end with a
    response whose [done] is true, all earlier ones being unfinished. *)
Theorem configureProject_sequential
    (fuel : nat) (projectId billingAccountId : string) (s : St)
    (outcome : Outcome unit) (s' : St) (trace : list Event) :
  run env (configureProject fuel projectId billingAccountId) s
  = (outcome, s', trace) ->
  repairProject fuel projectId billingAccountId
  = configureProject fuel projectId billingAccountId
  ∧ configuredInOrder projectId billingAccountId outcome trace.
Proof.
  intros Hrun. split; [reflexivity|].
  unfold configureProject in Hrun. unfold configuredInOrder.
  rewrite run_bind, run_call in Hrun.
  destruct (request env (updateProjectBillingInfo _ _) s) as [[e|info] s1].
  { injection Hrun as <- <- <-. left. eauto. }
  right. rewrite run_bind, run_call in Hrun.
  destruct (request env (enableServices _ _) s1) as [[e|response] s2].
  { injection Hrun as <- <- <-. left. eauto. }
  right. rewrite run_bind in Hrun.
  destruct (run env (whileNotDone fuel _ None) s2) as [[o3 s3] t3] eqn:Hloop.
  pose proof (whileNotDone_events _ _ _ _ _ _ _ Hloop) as Hevents.
  exists info, response, t3.
  destruct o3 as [result|e|].
  - destruct (op_error response); cbn in Hrun; injection Hrun as <- <- <-;
      rewrite app_nil_r; (split; [reflexivity|]); (split; [assumption|]);
      intros _;
      (eapply whileNotDone_returned in Hloop as (op & _ & Hpolled);
       [eauto|]);
      intros s0 op s0' t; rewrite run_poll_body;
      destruct (request env _ _) as [[?|?] ?]; by intros [= <- <- <-].
  - injection Hrun as <- <- <-. repeat split; [assumption | discriminate].
  - injection Hrun as <- <- <-. repeat split; [assumption | discriminate].
Qed.

End Configuration.

Lemma configureProject_sequential_witness :
  repairProject 3 "proj-1" "BILL-1" = configureProject 3 "proj-1" "BILL-1"
  ∧ configuredInOrder "proj-1" "BILL-1" (Returned tt)
      (run (simEnv calmScenario) (configureProject 3 "proj-1" "BILL-1")
         slowCloud).2.
Proof.
  exact (configureProject_sequential (simEnv calmScenario) 3 "proj-1" "BILL-1"
           slowCloud _ _ _ eq_refl).
Defined.

(** ** Errors of the enablement operation *)

Section OperationErrors.

Context {St : Type} (env : Env St).

(** With enough fuel the polling loop is left as soon as a response
    is done. *)
Lemma whileNotDone_returns name rounds :
  ∀ fuel op0 s,
    from_option op_done false op0 = false ->
    doneWithin env name rounds s ->
    (rounds <= fuel)%nat ->
    ∃ op s' trace,
      run env
        (whileNotDone fuel
           (Sleep (2 * 1000) (call (serviceUsageOperationGet name))) op0) s
      = (Returned (Some op), s', trace).
Proof.
  induction rounds as [|rounds IH]; intros fuel op0 s Hnot Hdone Hfuel;
    [contradiction|].
  destruct fuel as [|fuel]; [lia|].
  cbn [whileNotDone doneWithin] in *. rewrite Hnot.
  rewrite run_bind, run_poll_body.
  destruct (request env _ _) as [[e|op] s1]; [contradiction|].
  cbn [Reply] in *.
  destruct (op_done op) eqn:Hop.
  - destruct fuel; cbn; rewrite Hop; cbn; eauto.
  - destruct (IH fuel (Some op) s1 Hop Hdone ltac:(lia))
      as (op' & s' & trace & ->). eauto.
Qed.

(** The loop ends the same way, in the same state, whatever error the
    polled operations carry. *)
Lemma whileNotDone_error_blind err name fuel :
  ∀ op0 op0' s,
    from_option op_done false op0 = from_option op_done false op0' ->
    sameEnd
      (run env
         (whileNotDone fuel
            (Sleep (2 * 1000) (call (serviceUsageOperationGet name)))
            op0) s).1.1
      (run (withOperationError err env)
         (whileNotDone fuel
            (Sleep (2 * 1000) (call (serviceUsageOperationGet name)))
            op0') s).1.1
    ∧ (run env
         (whileNotDone fuel
            (Sleep (2 * 1000) (call (serviceUsageOperationGet name)))
            op0) s).1.2
      = (run (withOperationError err env)
           (whileNotDone fuel
              (Sleep (2 * 1000) (call (serviceUsageOperationGet name)))
              op0') s).1.2.
Proof.
  induction fuel as [|fuel IH]; intros op0 op0' s Hsame;
    cbn [whileNotDone]; rewrite <- Hsame;
    destruct (from_option op_done false op0); try (cbn; auto; fail).
  rewrite !run_bind, !run_poll_body.
  cbn [request elapse withOperationError].
  destruct (request env _ _) as [[e|op] s1]; [cbn; auto|].
  cbn [Reply] in *.
  generalize (IH (Some op) (Some (withError err op)) s1 eq_refl).
  destruct_run as [[o1 s2] t1] eqn:Hrun.
  destruct_run as [[o1' s2'] t1'] eqn:Hrun'. cbn. auto.
Qed.

End OperationErrors.

Section EnablementErrors.

Context {St : Type} (env : Env St).

(** Outcome and final state of [configureProject] do not depend on the
    error of the polled enablement operation. *)
Lemma configureProject_error_blind err fuel projectId billingAccountId s :
  (run (withOperationError err env)
     (configureProject fuel projectId billingAccountId) s).1
  = (run env (configureProject fuel projectId billingAccountId) s).1.
Proof.
  unfold configureProject. rewrite !run_bind, !run_call.
  cbn [request withOperationError].
  destruct (request env (updateProjectBillingInfo _ _) s) as [[e|info] s1];
    [reflexivity|].
  rewrite !run_bind, !run_call. cbn [request withOperationError].
  destruct (request env (enableServices _ _) s1) as [[e|response] s2];
    [reflexivity|].
  rewrite !run_bind.
  generalize (whileNotDone_error_blind env err (op_name response) fuel
                None None s2 eq_refl).
  destruct_run as [[o3 s3] t3] eqn:Hrun.
  destruct_run as [[o3' s3'] t3'] eqn:Hrun'. cbn.
  intros [Hend <-].
  destruct o3 as [r|e|], o3' as [r'|e'|]; cbn in Hend; try contradiction;
    subst; try reflexivity.
  destruct (op_error response); reflexivity.
Qed.

(** C10. When the billing link and the enablement request are
    answered and the enablement operation is reported done within the
    fuel, [configureProject] returns normally, and it does so in the
    same state whatever error the polled operation carries: an
    enablement that ends with an error looks like success. *)
Theorem configureProject_ignores_operation_error
    (fuel rounds : nat) (projectId billingAccountId : string) (s : St)
    (info : ProjectBillingInfo) (s1 : St)
    (response : Operation) (s2 : St) :
  request env
    (updateProjectBillingInfo projectId
       (updateProjectBillingInfoData projectId billingAccountId)) s
  = (inr info, s1) ->
  request env (enableServices projectId enableServicesData) s1
  = (inr response, s2) ->
  doneWithin env (op_name response) rounds s2 ->
  (rounds <= fuel)%nat ->
  ∃ s',
    ∀ err : option OperationError,
      ∃ trace,
        run (withOperationError err env)
          (configureProject fuel projectId billingAccountId) s
        = (Returned tt, s', trace).
Proof.
  intros Hlink Henable Hdone Hfuel.
  assert (Hrun : ∃ s' trace,
    run env (configureProject fuel projectId billingAccountId) s
    = (Returned tt, s', trace)).
  { unfold configureProject. rewrite run_bind, run_call, Hlink.
    rewrite run_bind, run_call, Henable. rewrite run_bind.
    destruct (whileNotDone_returns env (op_name response) rounds fuel None
                s2 eq_refl Hdone Hfuel) as (op & s' & trace & ->).
    destruct (op_error response); cbn; eauto. }
  destruct Hrun as (s' & trace & Hrun). exists s'. intros err.
  pose proof (configureProject_error_blind err fuel projectId
                billingAccountId s) as Hblind.
  rewrite Hrun in Hblind.
  destruct (run (withOperationError err env) _ s) as [[o' s''] trace'].
  cbn in Hblind. injection Hblind as -> ->. eauto.
Qed.

End EnablementErrors.

Lemma configureProject_ignores_operation_error_witness :
  ∃ s',
    ∀ err : option OperationError,
      ∃ trace,
        run (withOperationError err (simEnv enablementFailsScenario))
          (configureProject 3 "proj-1" "BILL-1") slowCloud
        = (Returned tt, s', trace).
Proof.
  refine (configureProject_ignores_operation_error
            (simEnv enablementFailsScenario) 3 3 "proj-1" "BILL-1" slowCloud
            _ _ _ _ eq_refl eq_refl _ _).
  - vm_compute. exact I.
  - lia.
Defined.

(** The enablement operation of that run does end with an error. *)
Lemma enablement_error_unobserved :
  run (simEnv enablementFailsScenario) (configureProject 3 "proj-1" "BILL-1")
    slowCloud
  = (Returned tt,
     {| cloud_time := 1614917235000; cloud_pollsLeft := 0;
        cloud_firewalls := []; cloud_addresses := [];
        cloud_instance := None |},
     [ Called
         (updateProjectBillingInfo "proj-1"
            (updateProjectBillingInfoData "proj-1" "BILL-1"))
         (inr {| billingEnabled := true |});
       Called (enableServices "proj-1" enableServicesData)
         (inr (pendingOperation "operations/acf.proj-1" EmptyString false));
       Slept 2000;
       polledServiceUsage "operations/acf.proj-1"
         (pendingOperation "operations/acf.proj-1" EmptyString false);
       Slept 2000;
       polledServiceUsage "operations/acf.proj-1"
         (pendingOperation "operations/acf.proj-1" EmptyString false);
       Slept 2000;
       polledServiceUsage "operations/acf.proj-1"
         {| op_name := "operations/acf.proj-1"; op_done := true;
            op_targetId := EmptyString;
            op_error := Some {| errors := Some ["PERMISSION_DENIED"] |} |} ]).
Proof. vm_compute. reflexivity. Qed.

(** ** Creating a project *)

Section Projects.

Context {St : Type} (env : Env St).

(** C6. Against a provider that reports the creation operation done
    at the first poll and the enablement operation done at the first
    poll, [createProject] returns the project with the given id and the
    name [Outline servers], and its run holds exactly one billing-link
    request and exactly one service-enablement request. *)
Theorem createProject_scenario
    (fuel : nat) (projectId billingAccountId : string) (s : St)
    (created : Operation) (s1 : St) (polled : Operation) (s2 : St)
    (info : ProjectBillingInfo) (s3 : St)
    (response : Operation) (s4 : St) (enabled : Operation) (s5 : St) :
  (1 <= fuel)%nat ->
  request env (createProject_ projectId (createProjectData projectId)) s
  = (inr created, s1) ->
  request env (resourceManagerOperationGet (op_name created))
    (elapse env (2 * 1000) s1)
  = (inr polled, s2) ->
  op_done polled = true ->
  request env
    (updateProjectBillingInfo projectId
       (updateProjectBillingInfoData projectId billingAccountId)) s2
  = (inr info, s3) ->
  request env (enableServices projectId enableServicesData) s3
  = (inr response, s4) ->
  request env (serviceUsageOperationGet (op_name response))
    (elapse env (2 * 1000) s4)
  = (inr enabled, s5) ->
  op_done enabled = true ->
  ∃ trace,
    run env (createProject fuel projectId billingAccountId) s
    = (Returned {| project_id := projectId;
                   project_name := "Outline servers" |}, s5, trace)
    ∧ countCalls isUpdateProjectBillingInfo trace = 1%nat
    ∧ countCalls isEnableServices trace = 1%nat.
Proof.
  intros Hfuel Hcreate Hpoll Hdone Hlink Henable Hpoll' Hdone'.
  destruct fuel as [|fuel]; [lia|].
  unfold createProject, configureProject. cbn -[Z.mul].
  rewrite Hcreate, Hpoll.
  destruct fuel; cbn -[Z.mul]; rewrite Hdone; cbn -[Z.mul];
    destruct (op_error polled); cbn -[Z.mul];
    rewrite Hlink, Henable, Hpoll', Hdone'; cbn -[Z.mul];
    destruct (op_error response); cbn -[Z.mul];
    eexists; (split; [reflexivity|]); split; reflexivity.
Qed.

End Projects.

Lemma createProject_scenario_witness :
  ∃ trace,
    run (simEnv calmScenario) (createProject 1 "proj-1" "BILL-1") freshCloud
    = (Returned {| project_id := "proj-1"; project_name := "Outline servers" |},
       {| cloud_time := 1614917233000; cloud_pollsLeft := 0;
          cloud_firewalls := []; cloud_addresses := [];
          cloud_instance := None |},
       trace)
    ∧ countCalls isUpdateProjectBillingInfo trace = 1%nat
    ∧ countCalls isEnableServices trace = 1%nat.
Proof.
  refine (createProject_scenario (simEnv calmScenario) 1 "proj-1" "BILL-1"
            freshCloud _ _ _ _ _ _ _ _ _ _ _ eq_refl eq_refl eq_refl
            eq_refl eq_refl eq_refl eq_refl).
  lia.
Defined.

Lemma promoteEphemeralIp_reserves_address_witness :
  ∃ outcome s2 trace,
    run (simEnv calmScenario) (promoteEphemeralIpIfNeeded simRegionId locator0)
      provisionedCloud
    = (outcome, s2, trace)
    ∧ outcome = Returned tt
    ∧ countCalls isCreateStaticIp trace = 1%nat
    ∧ cloud_addresses s2 = [("proj-1", "us-central1", Some "34.68.1.2")].
Proof.
  destruct (promoteEphemeralIp_reserves_address (simEnv calmScenario)
              simRegionId provisionedCloud locator0 _ _ _ _ _ _ "34.68.1.2"
              _ _ eq_refl eq_refl eq_refl eq_refl eq_refl)
    as (outcome & Hrun & _ & Houtcome & Hcount).
  eexists _, _, _. split; [exact Hrun|]. split; [exact Houtcome|].
  split; [exact Hcount | reflexivity].
Defined.

(** ** Creating a server *)

Section Servers.

Context {St : Type} (env : Env St).
Variable SCRIPT : string.
Variable getRegionId : string -> string.

(** C1 (amended). [createServer] returns the server handle as soon as
    the creation request has been answered with its operation, done or
    not: the run holds that one request only. The wait for the
    operation, the address promotion and the firewall step all belong
    to the completion promise, which is still pending at that point. *)
Theorem createServer_returns_on_submission
    (this : GcpAccount) (projectId description zoneId : string)
    (s : St) (operation : Operation) (s1 : St) :
  request env
    (createInstance_ projectId zoneId
       (createInstanceData SCRIPT (makeInstanceName (clock env s))
          description zoneId)) s
  = (inr operation, s1) ->
  run env (createServer SCRIPT getRegionId this projectId description zoneId) s
  = (Returned
       {| server_accountId := id this;
          server_locator :=
            {| projectId := projectId; zoneId := zoneId;
               instanceId := op_targetId operation |};
          server_name := makeInstanceName (clock env s);
          server_completion :=
            completion getRegionId projectId zoneId operation |},
     s1,
     [Called
        (createInstance_ projectId zoneId
           (createInstanceData SCRIPT (makeInstanceName (clock env s))
              description zoneId))
        (inr operation)])
  ∧ settle env []
      (first (completion getRegionId projectId zoneId operation))
      (second (completion getRegionId projectId zoneId operation)) s1
    = (Pending, s1, []).
Proof.
  intros Hcreate. unfold createServer, createInstance. cbn.
  rewrite Hcreate. split; reflexivity.
Qed.

End Servers.

Lemma createServer_returns_on_submission_witness :
  run (simEnv calmScenario)
    (createServer "SCRIPT" simRegionId account0 "proj-1" "my server"
       "us-central1-a") freshCloud
  = (Returned
       {| server_accountId := "account-1";
          server_locator := locator0;
          server_name := "outline-202125-479";
          server_completion :=
            completion simRegionId "proj-1" "us-central1-a"
              (pendingOperation "operation-vm" "4242" false) |},
     provisionedCloud,
     [Called
        (createInstance_ "proj-1" "us-central1-a"
           (createInstanceData "SCRIPT" "outline-202125-479" "my server"
              "us-central1-a"))
        (inr (pendingOperation "operation-vm" "4242" false))])
  ∧ settle (simEnv calmScenario) []
      (first (completion simRegionId "proj-1" "us-central1-a"
                (pendingOperation "operation-vm" "4242" false)))
      (second (completion simRegionId "proj-1" "us-central1-a"
                 (pendingOperation "operation-vm" "4242" false)))
      provisionedCloud
    = (Pending, provisionedCloud, []).
Proof.
  exact (createServer_returns_on_submission (simEnv calmScenario) "SCRIPT"
           simRegionId account0 "proj-1" "my server" "us-central1-a"
           freshCloud _ _ eq_refl).
Defined.

(** C1 (counterexample). In the simulated cloud the creation request is
    answered with an operation that is not done; the handle is returned
    all the same, and nothing in the run has seen the operation done. *)
Lemma createServer_returns_before_done :
  ¬ returnsAfterCreationDone (simEnv calmScenario)
      (createServer "SCRIPT" simRegionId account0 "proj-1" "my server"
         "us-central1-a") freshCloud.
Proof.
  intros Hclaim.
  specialize (Hclaim _ _ _ eq_refl). vm_compute in Hclaim.
  discriminate Hclaim.
Qed.

(** ** The completion promise *)

Section Completion.

Context {St : Type} (env : Env St).

Lemma settle_throw_first schedule e q s :
  settle env schedule (Throw e) q s = (Rejected e, s, []).
Proof. destruct schedule; reflexivity. Qed.

Lemma step_answered (p : Proc unit) s p' s' t :
  step env p s = (p', s', t) ->
  Forall answered t ∨ ∃ e, p' = Throw e.
Proof.
  destruct p as [a|e|c k|ms k|k|]; cbn;
    try (intros [= <- <- <-]; left; repeat constructor).
  destruct (request env c s) as [[e|v] s1]; intros [= <- <- <-].
  - eauto.
  - left. repeat constructor.
Qed.

(** A rejected request of either process rejects the promise: a
    fulfilled promise has seen every request answered. *)
Lemma settle_fulfilled_answered schedule :
  ∀ p q s s' trace,
    settle env schedule p q s = (Fulfilled, s', trace) ->
    Forall answered trace.
Proof.
  induction schedule as [|turn rest IH]; intros p q s s' trace.
  - destruct p, q; cbn; intros [= <- <-]; constructor.
  - assert (Hstep_p : ∀ q0,
      (let '(p', s1, t1) := step env p s in
       let '(o, s2, t2) := settle env rest p' q0 s1 in (o, s2, t1 ++ t2))
      = (Fulfilled, s', trace) -> Forall answered trace).
    { intros q0. destruct (step env p s) as [[p' s1] t1] eqn:Hstep.
      destruct (settle env rest p' q0 s1) as [[o s2] t2] eqn:Hrest.
      intros [= -> <- <-]. apply Forall_app. split; [|eauto].
      destruct (step_answered _ _ _ _ _ Hstep) as [H|[e ->]]; [assumption|].
      rewrite settle_throw_first in Hrest. discriminate. }
    assert (Hstep_q : ∀ p0,
      (∀ e, p0 ≠ Throw e) ->
      (let '(q', s1, t1) := step env q s in
       let '(o, s2, t2) := settle env rest p0 q' s1 in (o, s2, t1 ++ t2))
      = (Fulfilled, s', trace) -> Forall answered trace).
    { intros p0 Hp0. destruct (step env q s) as [[q' s1] t1] eqn:Hstep.
      destruct (settle env rest p0 q' s1) as [[o s2] t2] eqn:Hrest.
      intros [= -> <- <-]. apply Forall_app. split; [|eauto].
      destruct (step_answered _ _ _ _ _ Hstep) as [H|[e ->]]; [assumption|].
      destruct rest, p0; cbn in Hrest; try discriminate;
        exfalso; eapply Hp0; reflexivity. }
    destruct p, q; cbn [settle finished negb andb orb];
      try (intros [= <- <-]; constructor);
      try discriminate;
      destruct turn; cbn [settle finished negb andb orb];
      first [ apply Hstep_p | apply Hstep_q; discriminate ].
Qed.

End Completion.

(** C2 (evaluation at the failing input). The firewall creation comes
    back with errors and no rule exists afterwards, yet in every
    interleaving of the two continuations the completion promise of
    [createServer] is fulfilled. *)
Theorem completion_fulfilled_despite_firewall_error :
  ∃ server s1 trace1,
    run (simEnv firewallFailsScenario)
      (createServer "SCRIPT" simRegionId account0 "proj-1" "my server"
         "us-central1-a") freshCloud
    = (Returned server, s1, trace1)
    ∧ Forall
        (fun schedule =>
           ∃ s2 trace2,
             settle (simEnv firewallFailsScenario) schedule
               (first (server_completion server))
               (second (server_completion server)) s1
             = (Fulfilled, s2, trace2)
             ∧ existsb firewallErrorReported trace2 = true
             ∧ countRules "proj-1" "outline" s2 = 0%nat)
        (schedules 5).
Proof.
  eexists _, _, _. split; [reflexivity|].
  cbn [schedules List.map app].
  repeat (constructor;
          [eexists _, _; split; [reflexivity|]; split; reflexivity|]).
  constructor.
Qed.

(** ** The firewall rule *)

Section Firewall.

Context {St : Type} (env : Env St).

(** When the list query reports a rule, nothing else is requested. *)
Lemma createFirewallIfNeeded_existing s projectId response rule others s1 :
  request env (listFirewalls projectId OUTLINE_FIREWALL_NAME) s
  = (inr response, s1) ->
  response ≫= firewalls_items = Some (rule :: others) ->
  run env (createFirewallIfNeeded projectId) s
  = (Returned tt, s1,
     [Called (listFirewalls projectId OUTLINE_FIREWALL_NAME) (inr response)]).
Proof.
  intros Hlist Hitems. unfold createFirewallIfNeeded. cbn.
  rewrite Hlist. cbn in Hitems |- *. rewrite Hitems. reflexivity.
Qed.

(** When it reports none, one rule is requested. *)
Lemma createFirewallIfNeeded_missing s projectId response s1 op s2 :
  request env (listFirewalls projectId OUTLINE_FIREWALL_NAME) s
  = (inr response, s1) ->
  match response ≫= firewalls_items with
  | Some (_ :: _) => False
  | _ => True
  end ->
  request env (createFirewall projectId createFirewallData) s1
  = (inr op, s2) ->
  run env (createFirewallIfNeeded projectId) s
  = (Returned tt, s2,
     [Called (listFirewalls projectId OUTLINE_FIREWALL_NAME) (inr response);
      Called (createFirewall projectId createFirewallData) (inr op)]).
Proof.
  intros Hlist Hitems Hcreate. unfold createFirewallIfNeeded. cbn.
  rewrite Hlist. cbn in Hitems |- *.
  destruct (response ≫= firewalls_items) as [[|rule others]|];
    [| contradiction |]; cbn; rewrite Hcreate;
    destruct (op_error op ≫= errors); reflexivity.
Qed.

Variable rules : St -> string -> string -> nat.
Hypothesis store : FirewallStore env rules.

(** C5. When the list query reports a rule of the fixed name,
    [createFirewallIfNeeded] issues no creation request. Against an
    environment that keeps firewall rules, two calls in a row both
    return, the second consists of the list query alone, and a project
    that had no rule of that name has exactly one afterwards (a project
    that had some keeps what it had). *)
Theorem createFirewallIfNeeded_idempotent (s : St) (projectId : string) :
  (∀ response rule others s1,
      request env (listFirewalls projectId OUTLINE_FIREWALL_NAME) s
      = (inr response, s1) ->
      response ≫= firewalls_items = Some (rule :: others) ->
      ∃ trace,
        run env (createFirewallIfNeeded projectId) s
        = (Returned tt, s1, trace)
        ∧ countCalls isCreateFirewall trace = 0%nat)
  ∧ ∃ s1 trace1 s2 answer,
      run env (createFirewallIfNeeded projectId) s
      = (Returned tt, s1, trace1)
      ∧ run env (createFirewallIfNeeded projectId) s1
        = (Returned tt, s2,
           [Called (listFirewalls projectId OUTLINE_FIREWALL_NAME) answer])
      ∧ (countCalls isCreateFirewall trace1 <= 1)%nat
      ∧ rules s2 projectId OUTLINE_FIREWALL_NAME
        = Nat.max 1 (rules s projectId OUTLINE_FIREWALL_NAME).
Proof.
  split.
  { intros response rule others s1 Hlist Hitems.
    erewrite createFirewallIfNeeded_existing by eassumption.
    eexists. split; reflexivity. }
  assert (Hsecond : ∀ s1,
    (0 < rules s1 projectId OUTLINE_FIREWALL_NAME)%nat ->
    ∃ s2 answer,
      run env (createFirewallIfNeeded projectId) s1
      = (Returned tt, s2,
         [Called (listFirewalls projectId OUTLINE_FIREWALL_NAME) answer])
      ∧ rules s2 projectId OUTLINE_FIREWALL_NAME
        = rules s1 projectId OUTLINE_FIREWALL_NAME).
  { intros s1 Hsome.
    destruct (store_list env rules store s1 projectId OUTLINE_FIREWALL_NAME)
      as (response & s2 & Hlist & Hsame & Hitems).
    destruct (response ≫= firewalls_items) as [[|rule others]|] eqn:Hresp;
      [lia | | lia].
    exists s2, (inr response). split; [|apply Hsame].
    eapply createFirewallIfNeeded_existing; eassumption. }
  destruct (store_list env rules store s projectId OUTLINE_FIREWALL_NAME)
    as (response & s1 & Hlist & Hsame & Hitems).
  destruct (response ≫= firewalls_items) as [[|rule others]|] eqn:Hresp.
  2:{ destruct (Hsecond s1) as (s2 & answer & Hrun2 & Hrules2).
      { rewrite Hsame. assumption. }
      eexists s1, _, s2, answer.
      split; [eapply createFirewallIfNeeded_existing; eassumption|].
      split; [assumption|]. split; [vm_compute; lia|].
      rewrite Hrules2, Hsame. lia. }
  all: destruct (store_create env rules store s1 projectId createFirewallData)
         as (op & s1' & Hcreate & Hadded);
    change (fw_name createFirewallData) with OUTLINE_FIREWALL_NAME in Hadded;
    rewrite Hsame in Hadded;
    (destruct (Hsecond s1') as (s2 & answer & Hrun2 & Hrules2); [lia|]);
    eexists s1', _, s2, answer;
    (split; [eapply createFirewallIfNeeded_missing;
             [eassumption | by rewrite Hresp | eassumption]|]);
    (split; [assumption|]); (split; [vm_compute; lia|]);
    rewrite Hrules2, Hadded, Hitems; reflexivity.
Qed.

End Firewall.

(** The simulated cloud keeps firewall rules when creation succeeds. *)
Lemma sim_firewall_store sc :
  sc_firewallError sc = None ->
  FirewallStore (simEnv sc) (fun c project name => countRules project name c).
Proof.
  intros Hok. split.
  - intros c project name. cbn. unfold countRules.
    destruct (List.filter (matchingRule project name) (cloud_firewalls c))
      as [|rule found]; eexists _, _; (split; [reflexivity|]);
      split; cbn; auto; lia.
  - intros c project data. cbn. rewrite Hok. eexists _, _.
    split; [reflexivity|]. unfold countRules. cbn.
    rewrite List.filter_app, length_app. cbn.
    unfold matchingRule at 2. cbn. rewrite !String.eqb_refl. cbn. lia.
Qed.

Lemma createFirewallIfNeeded_idempotent_witness :
  ∃ s1 trace1 s2 answer,
    run (simEnv calmScenario) (createFirewallIfNeeded "proj-1") freshCloud
    = (Returned tt, s1, trace1)
    ∧ run (simEnv calmScenario) (createFirewallIfNeeded "proj-1") s1
      = (Returned tt, s2, [Called (listFirewalls "proj-1" "outline") answer])
    ∧ countRules "proj-1" "outline" s2 = 1%nat.
Proof.
  destruct (proj2 (createFirewallIfNeeded_idempotent (simEnv calmScenario)
                     (fun c project name => countRules project name c)
                     (sim_firewall_store calmScenario eq_refl)
                     freshCloud "proj-1"))
    as (s1 & trace1 & s2 & answer & Hfirst & Hsecond & _ & Hrules).
  exists s1, trace1, s2, answer. split; [exact Hfirst|].
  split; [exact Hsecond | exact Hrules].
Defined.

(* ================================================================= *)
(** * Further properties of the account model *)

(** ** What [listLocations] returns, and when it fails *)

Section LocationContents.

Lemma upNames_cons key zone zones :
  upNames key (zone :: zones)
  = (if String.eqb (zone_status zone) "UP"
        && String.eqb (zoneRegionKey zone) key
     then [zone_name zone] else [])
    ++ upNames key zones.
Proof.
  unfold upNames. cbn.
  destruct (String.eqb (zone_status zone) "UP"
            && String.eqb (zoneRegionKey zone) key); reflexivity.
Qed.

Lemma hasRegion_cons key zone zones :
  hasRegion key (zone :: zones)
  = String.eqb (zoneRegionKey zone) key || hasRegion key zones.
Proof. reflexivity. Qed.

Lemma hasProperty_spec key (result : ZoneMap) :
  hasProperty key result
  = match result !! key with
    | Some _ => true
    | None => inherited key
    end.
Proof.
  unfold hasProperty, inherited.
  destruct (result !! key) as [names|] eqn:Hkey.
  - rewrite bool_decide_eq_true_2 by eauto. reflexivity.
  - rewrite bool_decide_eq_false_2 by (intros [? ?]; congruence).
    reflexivity.
Qed.

(** The walk never stores an inherited key, and it files the names of
    the [UP] zones of every other key in the order of the list. *)
Lemma listLocations_zones_contents zones :
  ∀ (result result' : ZoneMap),
    (∀ key, inherited key = true -> result !! key = None) ->
    listLocations_zones zones result = inr result' ->
    ∀ key,
      result' !! key
      = match result !! key with
        | Some names => Some (names ++ upNames key zones)
        | None =>
            if hasRegion key zones && negb (inherited key)
            then Some (upNames key zones) else None
        end.
Proof.
  induction zones as [|zone zones IH]; intros result result' Hclean;
    cbn [listLocations_zones].
  { intros [= <-] key. destruct (result !! key); [|reflexivity].
    by rewrite app_nil_r. }
  destruct (listLocations_zone result zone) as [e|result1] eqn:Hzone;
    [discriminate|].
  intros Hrest key. revert Hzone. unfold listLocations_zone.
  fold (zoneRegionKey zone). rewrite hasProperty_spec.
  rewrite upNames_cons, hasRegion_cons.
  destruct (result !! zoneRegionKey zone) as [names|] eqn:Hold; cbn [negb].
  - (* the key is already in the map *)
    assert (Hown : inherited (zoneRegionKey zone) = false).
    { destruct (inherited (zoneRegionKey zone)) eqn:Hinh; [|reflexivity].
      rewrite (Hclean _ Hinh) in Hold. discriminate. }
    rewrite Hold.
    destruct (String.eqb (zone_status zone) "UP") eqn:Hup; intros [= <-].
    + assert (Hclean1 : ∀ k, inherited k = true ->
                (<[zoneRegionKey zone := names ++ [zone_name zone]]> result
                   : ZoneMap) !! k = None).
      { intros k Hk. rewrite lookup_insert_ne; [auto | congruence]. }
      rewrite (IH _ _ Hclean1 Hrest key).
      destruct (String.eqb_spec (zoneRegionKey zone) key) as [<-|Hne].
      * rewrite lookup_insert_eq, Hold. cbn. by rewrite <- app_assoc.
      * rewrite lookup_insert_ne by assumption. cbn.
        destruct (result !! key); reflexivity.
    + rewrite (IH _ _ Hclean Hrest key). cbn.
      destruct (String.eqb_spec (zoneRegionKey zone) key) as [<-|Hne].
      * by rewrite Hold.
      * destruct (result !! key); reflexivity.
  - destruct (inherited (zoneRegionKey zone)) eqn:Hinh; cbn [negb].
    + (* an inherited key: nothing is stored, an [UP] zone fails *)
      rewrite Hold.
      destruct (String.eqb (zone_status zone) "UP") eqn:Hup; [discriminate|].
      intros [= <-]. rewrite (IH _ _ Hclean Hrest key). cbn.
      destruct (String.eqb_spec (zoneRegionKey zone) key) as [<-|Hne].
      * rewrite Hold, Hinh. cbn. by rewrite andb_false_r.
      * destruct (result !! key); reflexivity.
    + (* a new key *)
      rewrite lookup_insert_eq.
      assert (Hclean1 : ∀ names1 k, inherited k = true ->
                (<[zoneRegionKey zone := names1]> result : ZoneMap) !! k = None).
      { intros names1 k Hk. rewrite lookup_insert_ne; [auto | congruence]. }
      destruct (String.eqb (zone_status zone) "UP") eqn:Hup; intros [= <-].
      * rewrite insert_insert_eq in Hrest.
        rewrite (IH _ _ (Hclean1 _) Hrest key).
        destruct (String.eqb_spec (zoneRegionKey zone) key) as [<-|Hne].
        -- rewrite lookup_insert_eq, Hold, Hinh. reflexivity.
        -- rewrite lookup_insert_ne by assumption. cbn.
           destruct (result !! key); reflexivity.
      * rewrite (IH _ _ (Hclean1 _) Hrest key).
        destruct (String.eqb_spec (zoneRegionKey zone) key) as [<-|Hne].
        -- rewrite lookup_insert_eq, Hold, Hinh. reflexivity.
        -- rewrite lookup_insert_ne by assumption. cbn.
           destruct (result !! key); reflexivity.
Qed.

(** With an [UP] zone under an inherited key the walk ends in the
    [TypeError] of the push. *)
Lemma listLocations_zones_fails zones :
  ∀ result : ZoneMap,
    (∀ key, inherited key = true -> result !! key = None) ->
    Exists unlistable zones ->
    listLocations_zones zones result
    = inl (Js.TypeError "result[region].push is not a function").
Proof.
  induction zones as [|zone zones IH]; intros result Hclean Hbad;
    [by apply Exists_nil in Hbad|].
  cbn. unfold listLocations_zone. fold (zoneRegionKey zone).
  rewrite hasProperty_spec.
  destruct (decide (unlistable zone)) as [[Hup Hinh]|Hgood].
  - rewrite (Hclean _ Hinh), Hinh. cbn [negb].
    rewrite (proj2 (String.eqb_eq _ _) Hup), (Hclean _ Hinh). reflexivity.
  - apply Exists_cons in Hbad as [Hbad|Hbad]; [contradiction|].
    destruct (result !! zoneRegionKey zone) as [names|] eqn:Hold; cbn [negb].
    + assert (Hown : inherited (zoneRegionKey zone) = false).
      { destruct (inherited (zoneRegionKey zone)) eqn:Hinh; [|reflexivity].
        rewrite (Hclean _ Hinh) in Hold. discriminate. }
      rewrite Hold. destruct (String.eqb (zone_status zone) "UP"); [|eauto].
      apply IH; [|assumption].
      intros k Hk. rewrite lookup_insert_ne; [auto | congruence].
    + destruct (inherited (zoneRegionKey zone)) eqn:Hinh; cbn [negb].
      * rewrite Hold.
        destruct (String.eqb_spec (zone_status zone) "UP") as [Hup|_];
          [exfalso; apply Hgood; by split | eauto].
      * rewrite lookup_insert_eq.
        destruct (String.eqb (zone_status zone) "UP");
          (apply IH; [|assumption]);
          intros k Hk; rewrite ?lookup_insert_ne; auto; congruence.
Qed.

Context {St : Type} (env : Env St).

(** X1. The map [listLocations] returns is determined by the listed
    zones: a region key that is not an inherited property name and has
    at least one zone, up or down, holds the names of its [UP] zones in
    the order of the list (possibly none); every other key is absent. *)
Theorem listLocations_contents
    (s : St) (projectId : string) (response : ListZonesResponse) (s1 : St)
    (result : ZoneMap) (s' : St) (trace : list Event) (key : string) :
  request env (listZones projectId) s = (inr response, s1) ->
  run env (listLocations projectId) s = (Returned result, s', trace) ->
  result !! key
  = if hasRegion key (default [] (zones_items response))
       && negb (inherited key)
    then Some (upNames key (default [] (zones_items response)))
    else None.
Proof.
  intros Hreq. unfold listLocations. cbn. rewrite Hreq.
  destruct (listLocations_zones _ ∅) as [e|result0] eqn:Hwalk; cbn;
    [discriminate|].
  intros [= <- <- <-].
  rewrite (listLocations_zones_contents _ ∅ result0
             ltac:(intros; apply lookup_empty) Hwalk key).
  by rewrite lookup_empty.
Qed.

(** X2. When some listed zone is [UP] and its region key is the name
    of a property that object literals inherit, [listLocations] raises
    the [TypeError] of the failed push after its single request. *)
Theorem listLocations_inherited_key_raises
    (s : St) (projectId : string) (response : ListZonesResponse) (s1 : St) :
  request env (listZones projectId) s = (inr response, s1) ->
  Exists unlistable (default [] (zones_items response)) ->
  run env (listLocations projectId) s
  = (Raised (Js.TypeError "result[region].push is not a function"), s1,
     [Called (listZones projectId) (inr response)]).
Proof.
  intros Hreq Hbad. unfold listLocations. cbn. rewrite Hreq.
  rewrite (listLocations_zones_fails _ ∅) by
    (auto; intros; apply lookup_empty).
  reflexivity.
Qed.

End LocationContents.

Lemma listLocations_contents_witness :
  match (run (simEnv calmScenario) (listLocations "proj-1") freshCloud).1.1 with
  | Returned result => result !! "us-central1"
  | _ => None
  end = Some ["us-central1-a"].
Proof.
  exact (listLocations_contents (simEnv calmScenario) freshCloud "proj-1"
           _ _ _ _ _ "us-central1" eq_refl eq_refl).
Defined.

Lemma listLocations_inherited_key_raises_witness :
  run (simEnv oddScenario) (listLocations "proj-1") freshCloud
  = (Raised (Js.TypeError "result[region].push is not a function"),
     freshCloud,
     [Called (listZones "proj-1") (inr {| zones_items := Some oddZones |})]).
Proof.
  refine (listLocations_inherited_key_raises (simEnv oddScenario) freshCloud
            "proj-1" _ _ eq_refl _).
  apply Exists_cons_tl, Exists_cons_hd. split; reflexivity.
Defined.

(** ** Creating a project, step by step *)

Section ProjectSteps.

Context {St : Type} (env : Env St).




End ProjectSteps.



(** ** Edge cases of the address promotion *)

Section PromotionEdges.

Context {St : Type} (env : Env St).
Variable getRegionId : string -> string.

(** X4. When the fetched instance has no network interface, or its
    first interface has no access configuration, the promotion raises
    a [TypeError] after the fetch and requests no reservation. *)
Theorem promoteEphemeralIp_without_interface
    (s : St) (locator : InstanceLocator) (instance : Instance) (s1 : St) :
  request env (getInstance locator) s = (inr instance, s1) ->
  networkInterfaces instance = []
  ∨ (∃ interface others,
       networkInterfaces instance = interface :: others
       ∧ accessConfigs interface = []) ->
  ∃ message,
    run env (promoteEphemeralIpIfNeeded getRegionId locator) s
    = (Raised (Js.TypeError message), s1,
       [Called (getInstance locator) (inr instance)]).
Proof.
  intros Hget Hmissing. unfold promoteEphemeralIpIfNeeded. cbn.
  rewrite Hget.
  destruct Hmissing as [->|(interface & others & -> & ->)]; cbn; eauto.
Qed.

(** X5. The promotion does not depend on the instance having an
    external address: when the first access configuration carries no
    [natIP], a reservation is requested all the same, without an
    address. *)
Theorem promoteEphemeralIp_without_address
    (s : St) (locator : InstanceLocator) (instance : Instance) (s1 : St)
    (interface : NetworkInterface) (interfaces : list NetworkInterface)
    (config : AccessConfig) (configs : list AccessConfig)
    (answer : Js.Error + Operation) (s2 : St) :
  request env (getInstance locator) s = (inr instance, s1) ->
  networkInterfaces instance = interface :: interfaces ->
  accessConfigs interface = config :: configs ->
  natIP config = None ->
  request env
    (createStaticIp (projectId locator) (getRegionId (zoneId locator))
       (createStaticIpData instance None)) s1
  = (answer, s2) ->
  run env (promoteEphemeralIpIfNeeded getRegionId locator) s
  = (match answer with
     | inl e => Raised e
     | inr _ => Returned tt
     end, s2,
     [ Called (getInstance locator) (inr instance);
       Called
         (createStaticIp (projectId locator) (getRegionId (zoneId locator))
            {| ip_name := instance_name instance;
               ip_description := instance_description instance;
               ip_address := None |})
         answer ]).
Proof.
  intros Hget Hnics Hconfigs Hip Hreserve.
  unfold promoteEphemeralIpIfNeeded. cbn. rewrite Hget, Hnics. cbn.
  rewrite Hconfigs. cbn. rewrite Hip, Hreserve.
  destruct answer as [e|op]; [reflexivity|].
  destruct (op_error op ≫= errors); reflexivity.
Qed.

End PromotionEdges.

Lemma promoteEphemeralIp_without_interface_witness :
  ∃ message,
    run bareEnv (promoteEphemeralIpIfNeeded simRegionId locator0) tt
    = (Raised (Js.TypeError message), tt,
       [Called (getInstance locator0) (inr bareInstance)]).
Proof.
  exact (promoteEphemeralIp_without_interface bareEnv simRegionId tt locator0
           _ _ eq_refl (or_introl eq_refl)).
Defined.

Lemma promoteEphemeralIp_without_address_witness :
  run (simEnv oddScenario) (promoteEphemeralIpIfNeeded simRegionId locator0)
    provisionedCloud
  = (Returned tt,
     {| cloud_time := 1614917229000; cloud_pollsLeft := 0;
        cloud_firewalls := [];
        cloud_addresses := [("proj-1", "us-central1", None)];
        cloud_instance := Some ("outline-202125-479", "my server") |},
     [ Called (getInstance locator0)
         (inr {| instance_name := "outline-202125-479";
                 instance_description := "my server";
                 networkInterfaces :=
                   [{| accessConfigs := [{| natIP := None |}] |}] |});
       Called
         (createStaticIp "proj-1" "us-central1"
            {| ip_name := "outline-202125-479";
               ip_description := "my server";
               ip_address := None |})
         (inr {| op_name := "operation-ip"; op_done := false;
                 op_targetId := EmptyString; op_error := None |}) ]).
Proof.
  exact (promoteEphemeralIp_without_address (simEnv oddScenario) simRegionId
           provisionedCloud locator0 _ _ _ _ _ _ _ _
           eq_refl eq_refl eq_refl eq_refl eq_refl).
Defined.

(** ** The order and the end of the completion promise *)

Section CompletionOrder.

Context {St : Type} (env : Env St).

Lemma followStages_app stage t1 t2 :
  followStages stage (t1 ++ t2)
  = match followStages stage t1 with
    | Some stage1 => followStages stage1 t2
    | None => None
    end.
Proof.
  revert stage. induction t1 as [|[c r|ms] t1 IH]; intros stage; cbn; auto.
  destruct (allowedAt stage c); auto.
Qed.

Lemma keepsOrder_step stage (p : Proc unit) s p' s' t :
  keepsOrder stage p ->
  step env p s = (p', s', t) ->
  ∃ stage', followStages stage t = Some stage' ∧ keepsOrder stage' p'.
Proof.
  destruct p as [a|e|c k|ms k|k|]; cbn;
    try (intros H [= <- <- <-]; exists stage; split; [reflexivity | exact H]);
    try (intros H [= <- <- <-]; exists stage; split; [reflexivity | apply H]).
  intros [Hallowed Hnext].
  destruct (request env c s) as [[e|v] s1]; intros [= <- <- <-]; cbn;
    rewrite Hallowed; eexists; (split; [reflexivity|]); cbn; auto.
Qed.

Lemma stageAfter_beside stage c :
  besidePromotion c = true -> stageAfter stage c = stage.
Proof. destruct c; cbn; congruence. Qed.

Lemma allowedAt_beside stage c :
  besidePromotion c = true -> allowedAt stage c = true.
Proof. destruct c; cbn; congruence. Qed.

Lemma staysBeside_step stage (q : Proc unit) s q' s' t :
  staysBeside q ->
  step env q s = (q', s', t) ->
  followStages stage t = Some stage ∧ staysBeside q'.
Proof.
  destruct q as [a|e|c k|ms k|k|]; cbn;
    try (intros H [= <- <- <-]; split; [reflexivity | exact H]);
    try (intros H [= <- <- <-]; split; [reflexivity | apply H]).
  intros [Hbeside Hnext].
  destruct (request env c s) as [[e|v] s1]; intros [= <- <- <-]; cbn;
    rewrite (allowedAt_beside _ _ Hbeside), ?(stageAfter_beside _ _ Hbeside);
    split; cbn; auto.
Qed.

(** Interleaving a process that keeps the order with one that stays
    beside the promotion gives a trace that keeps the order. *)
Lemma settle_keeps_order schedule :
  ∀ stage p q s,
    keepsOrder stage p ->
    staysBeside q ->
    is_Some (followStages stage (settle env schedule p q s).2).
Proof.
  induction schedule as [|turn rest IH]; intros stage p q s Hp Hq.
  { destruct p, q; cbn; eauto. }
  assert (Hstep_p :
    is_Some (followStages stage
      (let '(p', s1, t1) := step env p s in
       let '(o, s2, t2) := settle env rest p' q s1 in (o, s2, t1 ++ t2)).2)).
  { destruct (step env p s) as [[p' s1] t1] eqn:Hstep.
    destruct (keepsOrder_step _ _ _ _ _ _ Hp Hstep) as (stage' & Ht1 & Hp').
    specialize (IH stage' p' q s1 Hp' Hq).
    destruct (settle env rest p' q s1) as [[o s2] t2]. cbn in IH |- *.
    by rewrite followStages_app, Ht1. }
  assert (Hstep_q :
    is_Some (followStages stage
      (let '(q', s1, t1) := step env q s in
       let '(o, s2, t2) := settle env rest p q' s1 in (o, s2, t1 ++ t2)).2)).
  { destruct (step env q s) as [[q' s1] t1] eqn:Hstep.
    destruct (staysBeside_step stage _ _ _ _ _ Hq Hstep) as [Ht1 Hq'].
    specialize (IH stage p q' s1 Hp Hq').
    destruct (settle env rest p q' s1) as [[o s2] t2]. cbn in IH |- *.
    by rewrite followStages_app, Ht1. }
  destruct p, q; cbn [settle finished negb andb orb]; try (cbn; eauto; fail);
    destruct turn; cbn [settle finished negb andb orb];
    first [ exact Hstep_p | exact Hstep_q ].
Qed.

(** A request that is only allowed from a stage on has an event before
    it that led to that stage. *)
Lemma followStages_before stage before c r after :
  is_Some (followStages stage (before ++ Called c r :: after)) ->
  allowedAt stage c = false ->
  (isGetInstance c = true -> existsb zoneWaitAnswered before = true)
  ∧ (isCreateStaticIp c = true -> existsb instanceFetched before = true).
Proof.
  revert stage. induction before as [|[c0 r0|ms] before IH]; intros stage;
    cbn [app followStages existsb].
  - intros [stage' H] Hc. rewrite Hc in H. discriminate.
  - destruct (allowedAt stage c0) eqn:Hc0; [|by intros [? ?]].
    intros Hfollow Hc.
    destruct r0 as [e|v].
    + destruct (IH _ Hfollow Hc) as [H1 H2].
      split; intros Hkind; rewrite ?H1, ?H2 by assumption;
        apply orb_true_r.
    + destruct (allowedAt (stageAfter stage c0) c) eqn:Hafter.
      * (* this answer opened the stage *)
        clear IH Hfollow.
        destruct c0, c; cbn in *; try congruence;
          (split; [|]); try discriminate; intros _; try reflexivity;
          destruct stage as [|[|stage]]; cbn in *; congruence.
      * destruct (IH _ Hfollow Hafter) as [H1 H2].
        split; intros Hkind; rewrite ?H1, ?H2 by assumption;
          apply orb_true_r.
  - apply IH.
Qed.

End CompletionOrder.

Section CompletionEnd.

Context {St : Type} (env : Env St).
Variable getRegionId : string -> string.

Lemma completion_keepsOrder projectId zoneId operation :
  keepsOrder 0 (first (completion getRegionId projectId zoneId operation))
  ∧ staysBeside (second (completion getRegionId projectId zoneId operation)).
Proof.
  split; cbn.
  - split; [reflexivity|]. intros _. split; [reflexivity|]. intros instance.
    destruct (networkInterfaces instance) as [|interface ?]; cbn; [exact I|].
    destruct (accessConfigs interface) as [|config ?]; cbn; [exact I|].
    split; [reflexivity|]. intros op.
    destruct (op_error op ≫= errors); exact I.
  - split; [reflexivity|]. intros response.
    destruct (match response ≫= firewalls_items with
              | Some rules => Nat.eqb (length rules) 0
              | None => true
              end); cbn; [|exact I].
    split; [reflexivity|]. intros op.
    destruct (op_error op ≫= errors); exact I.
Qed.

(** X6. In every interleaving of the completion of [createServer], with
    any provider, the instance is fetched only after the wait for the
    creation operation has been answered, and the reservation of the
    address is requested only after the instance has been fetched. *)
Theorem completion_promotes_in_order
    (projectId zoneId : string) (operation : Operation)
    (schedule : list bool) (s : St)
    (before : list Event) (c : ApiCall) (r : Js.Error + Reply c)
    (after : list Event) :
  (settle env schedule
     (first (completion getRegionId projectId zoneId operation))
     (second (completion getRegionId projectId zoneId operation)) s).2
  = before ++ Called c r :: after ->
  (isGetInstance c = true -> existsb zoneWaitAnswered before = true)
  ∧ (isCreateStaticIp c = true -> existsb instanceFetched before = true).
Proof.
  intros Htrace.
  destruct (completion_keepsOrder projectId zoneId operation) as [Hp Hq].
  pose proof (settle_keeps_order env schedule 0 _ _ s Hp Hq) as Hfollow.
  rewrite Htrace in Hfollow.
  destruct (allowedAt 0 c) eqn:Hallowed.
  - destruct c; cbn in *; split; discriminate.
  - exact (followStages_before _ _ _ _ _ Hfollow Hallowed).
Qed.

(** Inversion of a path, by the shape of the process. *)
Lemma Path_shape {A : Type} (p : Proc A) trace a :
  Path p trace a ->
  match p with
  | Ret a' => trace = [] ∧ a' = a
  | Await c k =>
      ∃ v rest, trace = Called c (inr v) :: rest ∧ Path (k v) rest a
  | Sleep ms k => ∃ rest, trace = Slept ms :: rest ∧ Path k rest a
  | NewDate k => ∃ now, Path (k now) trace a
  | Throw _ | Spin => False
  end.
Proof. destruct 1; eauto. Qed.

Lemma step_path (p : Proc unit) s p' s' t tp :
  step env p s = (p', s', t) ->
  Path p' tp tt ->
  Path p (t ++ tp) tt.
Proof.
  destruct p as [a|e|c k|ms k|k|]; cbn;
    try (by intros [= <- <- <-]).
  - destruct (request env c s) as [[e|v] s1]; intros [= <- <- <-] Hpath.
    + by apply Path_shape in Hpath.
    + by constructor.
  - intros [= <- <- <-] Hpath. by constructor.
  - intros [= <- <- <-] Hpath. cbn. by econstructor.
Qed.

(** A fulfilled promise has run both processes to their [return], all
    requests answered; its trace is made of their two traces. *)
Lemma settle_fulfilled_paths schedule :
  ∀ p q s s' trace,
    settle env schedule p q s = (Fulfilled, s', trace) ->
    ∃ tp tq, Path p tp tt ∧ Path q tq tt ∧ trace ≡ₚ tp ++ tq.
Proof.
  induction schedule as [|turn rest IH]; intros p q s s' trace.
  - destruct p as [[]| | | | |], q as [[]| | | | |]; cbn; intros [= <- <-].
    exists [], []. repeat constructor.
  - assert (Hstep_p : ∀ q0,
      (let '(p', s1, t1) := step env p s in
       let '(o, s2, t2) := settle env rest p' q0 s1 in (o, s2, t1 ++ t2))
      = (Fulfilled, s', trace) ->
      ∃ tp tq, Path p tp tt ∧ Path q0 tq tt ∧ trace ≡ₚ tp ++ tq).
    { intros q0. destruct (step env p s) as [[p' s1] t1] eqn:Hstep.
      destruct (settle env rest p' q0 s1) as [[o s2] t2] eqn:Hrest.
      intros [= -> <- <-].
      destruct (IH _ _ _ _ _ Hrest) as (tp & tq & Hp & Hq & Hperm).
      exists (t1 ++ tp), tq. split; [eauto using step_path|].
      split; [assumption|]. by rewrite Hperm, app_assoc. }
    assert (Hstep_q : ∀ p0,
      (let '(q', s1, t1) := step env q s in
       let '(o, s2, t2) := settle env rest p0 q' s1 in (o, s2, t1 ++ t2))
      = (Fulfilled, s', trace) ->
      ∃ tp tq, Path p0 tp tt ∧ Path q tq tt ∧ trace ≡ₚ tp ++ tq).
    { intros p0. destruct (step env q s) as [[q' s1] t1] eqn:Hstep.
      destruct (settle env rest p0 q' s1) as [[o s2] t2] eqn:Hrest.
      intros [= -> <- <-].
      destruct (IH _ _ _ _ _ Hrest) as (tp & tq & Hp & Hq & Hperm).
      exists tp, (t1 ++ tq). split; [assumption|].
      split; [eauto using step_path|].
      rewrite Hperm. apply Permutation_app_swap_app. }
    destruct p as [[]| | | | |], q as [[]| | | | |];
      cbn [settle finished negb andb orb];
      try discriminate;
      try (intros [= <- <-]; exists [], []; repeat constructor; fail);
      destruct turn; cbn [settle finished negb andb orb];
      first [ apply Hstep_p | apply Hstep_q ].
Qed.

(** X7. The completion of [createServer] is fulfilled only after both
    continuations have run to their end: in every interleaving and
    with any provider, a fulfilled completion has had the wait for the
    creation operation, the fetch of the instance, the reservation of the
    address and the firewall query answered. *)
Theorem completion_fulfilled_after_both
    (projectId zoneId : string) (operation : Operation)
    (schedule : list bool) (s s' : St) (trace : list Event) :
  settle env schedule
    (first (completion getRegionId projectId zoneId operation))
    (second (completion getRegionId projectId zoneId operation)) s
  = (Fulfilled, s', trace) ->
  existsb zoneWaitAnswered trace = true
  ∧ existsb instanceFetched trace = true
  ∧ existsb addressReserved trace = true
  ∧ existsb firewallListed trace = true.
Proof.
  intros Hsettle.
  destruct (settle_fulfilled_paths _ _ _ _ _ _ Hsettle)
    as (tp & tq & Hp & Hq & Hperm).
  assert (Hin : ∀ f ev, (ev ∈ tp ∨ ev ∈ tq) -> f ev = true ->
                        existsb f trace = true).
  { intros f ev Hev Hf. apply existsb_exists. exists ev. split; [|exact Hf].
    apply list_elem_of_In. rewrite Hperm. apply elem_of_app. exact Hev. }
  cbn in Hp, Hq.
  apply Path_shape in Hp as (wait & t1 & -> & Hp).
  apply Path_shape in Hp as (instance & t2 & -> & Hp).
  destruct (networkInterfaces instance) as [|interface ?];
    [by apply Path_shape in Hp|].
  destruct (accessConfigs interface) as [|config ?];
    [by apply Path_shape in Hp|].
  apply Path_shape in Hp as (reserved & t3 & -> & _).
  apply Path_shape in Hq as (listing & t4 & -> & _).
  split; [|split; [|split]].
  - apply (Hin _ (Called (computeEngineOperationZoneWait projectId zoneId
                            (op_name operation)) (inr wait)));
      [left; set_solver | reflexivity].
  - apply (Hin _ (Called (getInstance
                            {| projectId := projectId; zoneId := zoneId;
                               instanceId := op_targetId operation |})
                    (inr instance)));
      [left; set_solver | reflexivity].
  - apply (Hin _ (Called (createStaticIp projectId (getRegionId zoneId)
                            (createStaticIpData instance (natIP config)))
                    (inr reserved)));
      [left; set_solver | reflexivity].
  - apply (Hin _ (Called (listFirewalls projectId OUTLINE_FIREWALL_NAME)
                    (inr listing)));
      [right; set_solver | reflexivity].
Qed.

End CompletionEnd.

Lemma completion_promotes_in_order_witness :
  existsb zoneWaitAnswered
    [ Called (listFirewalls "proj-1" "outline")
        (inr (Some {| firewalls_items := None |}));
      Called
        (computeEngineOperationZoneWait "proj-1" "us-central1-a"
           "operation-vm")
        (inr (pendingOperation "operation-vm" "4242" true)) ]
  = true.
Proof.
  refine (proj1
            (completion_promotes_in_order (simEnv calmScenario) simRegionId
               "proj-1" "us-central1-a"
               (pendingOperation "operation-vm" "4242" false)
               schedule0 provisionedCloud
               [ Called (listFirewalls "proj-1" "outline")
                   (inr (Some {| firewalls_items := None |}));
                 Called
                   (computeEngineOperationZoneWait "proj-1" "us-central1-a"
                      "operation-vm")
                   (inr (pendingOperation "operation-vm" "4242" true)) ]
               (getInstance locator0) (inr provisionedInstance)
               [ Called
                   (createStaticIp "proj-1" "us-central1"
                      (createStaticIpData provisionedInstance
                         (Some "34.68.1.2")))
                   (inr {| op_name := "operation-ip"; op_done := false;
                           op_targetId := EmptyString; op_error := None |});
                 Called (createFirewall "proj-1" createFirewallData)
                   (inr (pendingOperation "operation-fw" EmptyString false)) ]
               eq_refl)
            eq_refl).
Defined.

Lemma completion_fulfilled_after_both_witness :
  existsb zoneWaitAnswered
    (settle (simEnv calmScenario) schedule0 (first completion0)
       (second completion0) provisionedCloud).2 = true
  ∧ existsb instanceFetched
      (settle (simEnv calmScenario) schedule0 (first completion0)
         (second completion0) provisionedCloud).2 = true
  ∧ existsb addressReserved
      (settle (simEnv calmScenario) schedule0 (first completion0)
         (second completion0) provisionedCloud).2 = true
  ∧ existsb firewallListed
      (settle (simEnv calmScenario) schedule0 (first completion0)
         (second completion0) provisionedCloud).2 = true.
Proof.
  exact (completion_fulfilled_after_both (simEnv calmScenario) simRegionId
           "proj-1" "us-central1-a"
           (pendingOperation "operation-vm" "4242" false)
           schedule0 provisionedCloud _ _ eq_refl).
Defined.

(** ** Two firewall steps in flight at once *)

Section FirewallRace.

Context {St : Type} (env : Env St).

Lemma settle_first_turn rest c k c' k' s :
  settle env (true :: rest) (Await c k) (Await c' k') s
  = let '(p', s1, t1) := step env (Await c k) s in
    let '(o, s2, t2) := settle env rest p' (Await c' k') s1 in
    (o, s2, t1 ++ t2).
Proof. reflexivity. Qed.

Lemma settle_second_turn rest (p : Proc unit) c' k' s :
  match p with Throw _ => False | _ => True end ->
  settle env (false :: rest) p (Await c' k') s
  = let '(q', s1, t1) := step env (Await c' k') s in
    let '(o, s2, t2) := settle env rest p q' s1 in
    (o, s2, t1 ++ t2).
Proof. destruct p as [[]| | | | |]; [reflexivity | contradiction | reflexivity..]. Qed.

Lemma step_answered_request (c : ApiCall) (k : Reply c -> Proc unit) s v s1 :
  request env c s = (inr v, s1) ->
  step env (Await c k) s = (k v, s1, [Called c (inr v)]).
Proof. intros H. cbn. by rewrite H. Qed.
Variable rules : St -> string -> string -> nat.
Hypothesis store : FirewallStore env rules.

(** X8. [createFirewallIfNeeded] is not atomic: when two of them are in
    flight against a project without the rule and both queries are
    answered before either creation, both request a creation, and an
    environment that keeps firewall rules ends with two rules of the
    fixed name. *)
Theorem createFirewallIfNeeded_race (s : St) (projectId : string) :
  rules s projectId OUTLINE_FIREWALL_NAME = 0%nat ->
  ∃ s' trace,
    settle env lockstep (createFirewallIfNeeded projectId)
      (createFirewallIfNeeded projectId) s
    = (Fulfilled, s', trace)
    ∧ countCalls isCreateFirewall trace = 2%nat
    ∧ rules s' projectId OUTLINE_FIREWALL_NAME = 2%nat.
Proof.
  intros Hnone.
  destruct (store_list env rules store s projectId OUTLINE_FIREWALL_NAME)
    as (response1 & s1 & Hlist1 & Hsame1 & Hitems1).
  destruct (store_list env rules store s1 projectId OUTLINE_FIREWALL_NAME)
    as (response2 & s2 & Hlist2 & Hsame2 & Hitems2).
  destruct (store_create env rules store s2 projectId createFirewallData)
    as (op3 & s3 & Hcreate3 & Hadded3).
  destruct (store_create env rules store s3 projectId createFirewallData)
    as (op4 & s4 & Hcreate4 & Hadded4).
  change (fw_name createFirewallData) with OUTLINE_FIREWALL_NAME in *.
  rewrite Hsame1, Hnone in Hitems2.
  assert (Hneeded : ∀ response : Reply (listFirewalls projectId
                                           OUTLINE_FIREWALL_NAME),
    match response ≫= firewalls_items with
    | Some (_ :: _) => (0 < 0)%nat
    | _ => 0%nat = 0%nat
    end ->
    match response ≫= firewalls_items with
    | Some listed => Nat.eqb (length listed) 0
    | None => true
    end = true).
  { intros response. destruct (response ≫= firewalls_items) as [[|? ?]|];
      cbn; [reflexivity | lia | reflexivity]. }
  rewrite Hnone in Hitems1.
  apply Hneeded in Hitems1, Hitems2.
  assert (Hstep : ∀ response : Reply (listFirewalls projectId
                                         OUTLINE_FIREWALL_NAME),
    match response ≫= firewalls_items with
    | Some listed => Nat.eqb (length listed) 0
    | None => true
    end = true ->
    ∃ k : Operation -> Proc unit,
      (∀ op, k op = Ret tt)
      ∧ (let items := response ≫= firewalls_items in
         if match items with
            | Some listed => Nat.eqb (length listed) 0
            | None => true
            end
         then bind (call (createFirewall projectId createFirewallData))
                (fun createFirewallOperation =>
                   match op_error createFirewallOperation ≫= errors with
                   | Some _ => Ret tt
                   | None => Ret tt
                   end)
         else Ret tt)
        = Await (createFirewall projectId createFirewallData) k).
  { intros response Hcreate. eexists. split; [|cbn; rewrite Hcreate; reflexivity].
    intros op. cbn. destruct (op_error op ≫= errors); reflexivity. }
  destruct (Hstep _ Hitems1) as (k1 & Hk1 & Hnext1).
  destruct (Hstep _ Hitems2) as (k2 & Hk2 & Hnext2).
  exists s4. eexists. unfold lockstep, createFirewallIfNeeded.
  set (next := fun getFirewallResponse :
                 Reply (listFirewalls projectId OUTLINE_FIREWALL_NAME) => _)
    in *.
  change (next response1 = Await (createFirewall projectId createFirewallData) k1)
    in Hnext1.
  change (next response2 = Await (createFirewall projectId createFirewallData) k2)
    in Hnext2.
  unfold call. cbn [bind].
  rewrite settle_first_turn, (step_answered_request _ _ _ _ _ Hlist1), Hnext1.
  rewrite settle_second_turn by exact I.
  rewrite (step_answered_request _ _ _ _ _ Hlist2), Hnext2.
  rewrite settle_first_turn, (step_answered_request _ _ _ _ _ Hcreate3), Hk1.
  rewrite settle_second_turn by exact I.
  rewrite (step_answered_request _ _ _ _ _ Hcreate4), Hk2.
  cbn [settle app].
  split; [reflexivity|]. split; [reflexivity|].
  rewrite Hadded4, Hadded3, Hsame2, Hsame1, Hnone. reflexivity.
Qed.

End FirewallRace.

Lemma createFirewallIfNeeded_race_witness :
  ∃ s' trace,
    settle (simEnv calmScenario) lockstep (createFirewallIfNeeded "proj-1")
      (createFirewallIfNeeded "proj-1") freshCloud
    = (Fulfilled, s', trace)
    ∧ countCalls isCreateFirewall trace = 2%nat
    ∧ countRules "proj-1" "outline" s' = 2%nat.
Proof.
  exact (createFirewallIfNeeded_race (simEnv calmScenario)
           (fun c project name => countRules project name c)
           (sim_firewall_store calmScenario eq_refl) freshCloud "proj-1"
           eq_refl).
Defined.

(** ** Names of servers created in the same second *)

Section SameSecond.

Context {St1 St2 : Type} (env1 : Env St1) (env2 : Env St2).
Variable SCRIPT : string.
Variable getRegionId : string -> string.

(** X9. Any two calls of [createServer], on whatever accounts, projects,
    descriptions and zones and against whatever providers, whose clock
    readings fall in the same second of the same time zone (with an
    offset of whole seconds) send creation requests with the same
    instance name, and the two servers returned carry that same name. *)
Theorem createServer_same_second
    (this1 this2 : GcpAccount)
    (projectId1 description1 zoneId1 : string)
    (projectId2 description2 zoneId2 : string)
    (s1 : St1) (s2 : St2) (server1 server2 : GcpServer)
    (s1' : St1) (s2' : St2) (trace1 trace2 : list Event) :
  Date.localTZA (clock env1 s1) = Date.localTZA (clock env2 s2) ->
  Date.localTZA (clock env1 s1) mod 1000 = 0 ->
  Date.timeValue (clock env1 s1) / 1000
  = Date.timeValue (clock env2 s2) / 1000 ->
  run env1
    (createServer SCRIPT getRegionId this1 projectId1 description1 zoneId1) s1
  = (Returned server1, s1', trace1) ->
  run env2
    (createServer SCRIPT getRegionId this2 projectId2 description2 zoneId2) s2
  = (Returned server2, s2', trace2) ->
  server_name server1 = server_name server2
  ∧ List.map eventCall trace1
    = [Some (createInstance_ projectId1 zoneId1
               (createInstanceData SCRIPT (server_name server1) description1
                  zoneId1))]
  ∧ List.map eventCall trace2
    = [Some (createInstance_ projectId2 zoneId2
               (createInstanceData SCRIPT (server_name server1) description2
                  zoneId2))].
Proof.
  intros Hzone Hwhole Hsecond.
  assert (Hname : makeInstanceName (clock env1 s1)
                  = makeInstanceName (clock env2 s2)).
  { destruct (clock env1 s1) as [tv1 tza1], (clock env2 s2) as [tv2 tza2].
    cbn in *. subst tza2. by apply makeInstanceName_same_second. }
  unfold createServer, createInstance. cbn. rewrite <- Hname.
  destruct (request env1 _ s1) as [[e1|op1] s1'']; [discriminate|].
  destruct (request env2 _ s2) as [[e2|op2] s2'']; [discriminate|].
  intros [= <- <- <-] [= <- <- <-]. cbn. auto.
Qed.

End SameSecond.

Lemma createServer_same_second_witness :
  match (run (simEnv calmScenario)
           (createServer "SCRIPT" simRegionId account0 "proj-1" "my server"
              "us-central1-a") freshCloud).1.1,
        (run (simEnv firewallFailsScenario)
           (createServer "SCRIPT" simRegionId
              {| id := "account-2"; refreshToken := "token-2" |}
              "proj-2" "other server" "europe-west1-b") laterCloud).1.1 with
  | Returned server1, Returned server2 =>
      server_name server1 = server_name server2
  | _, _ => False
  end.
Proof.
  exact (proj1
           (createServer_same_second (simEnv calmScenario)
              (simEnv firewallFailsScenario) "SCRIPT" simRegionId
              account0 {| id := "account-2"; refreshToken := "token-2" |}
              "proj-1" "my server" "us-central1-a"
              "proj-2" "other server" "europe-west1-b"
              freshCloud laterCloud _ _ _ _ _ _
              eq_refl eq_refl eq_refl eq_refl eq_refl)).
Defined.

(** ** Listing servers and billing accounts *)

Section Listing.

Context {St : Type} (provider : Provider St).

(** X10. When the zone list comes back without [items], [listServers]
    raises a [TypeError] (the loop over the zones has nothing to
    iterate) and sends no [listInstances] request. *)
Theorem listServers_without_items
    (this : GcpAccount) (projectId : string) (order : list nat) (s : St)
    (response : ListZonesResponse) (s1 : St) :
  answer provider (core (listZones projectId)) s = (inr response, s1) ->
  zones_items response = None ->
  perform provider order (listServers this projectId) s
  = (Raised (Js.TypeError "listZonesResponse.items is not iterable"), s1,
     [Asked (core (listZones projectId)) (inr response)]).
Proof.
  intros Hzones Hitems. unfold listServers. cbn [perform].
  rewrite Hzones, Hitems. reflexivity.
Qed.

End Listing.

Lemma listServers_without_items_witness :
  perform (listingProvider false) [] (listServers account0 "proj-1") tt
  = (Raised (Js.TypeError "listZonesResponse.items is not iterable"), tt,
     [Asked (core (listZones "proj-1")) (inr {| zones_items := None |})]).
Proof.
  exact (listServers_without_items (listingProvider false) account0 "proj-1"
           [] tt _ _ eq_refl eq_refl).
Defined.

Section Arrivals.

Context {St : Type} (provider : Provider St).

Lemma arrived_insert slots i v :
  slots !! i = Some None ->
  arrived (<[i := Some v]> slots) = S (arrived slots).
Proof.
  revert i. induction slots as [|slot slots IH]; intros [|i] Hi;
    try discriminate.
  - injection Hi as ->. reflexivity.
  - change (<[S i := Some v]> (slot :: slots))
      with (slot :: <[i := Some v]> slots).
    cbn. rewrite (IH i Hi). by destruct slot.
Qed.

Lemma arrived_repeat n : arrived (List.repeat None n) = 0%nat.
Proof. induction n; cbn; auto. Qed.

Lemma arrived_all slots responses :
  mapM (fun slot => slot) slots = Some responses ->
  arrived slots = length responses
  ∧ ∀ i, slots !! i = Some <$> responses !! i.
Proof.
  intros H. apply mapM_Some in H.
  induction H as [|slot response slots responses Hslot _ [IH1 IH2]].
  - split; [reflexivity|]. intros i. by rewrite !lookup_nil.
  - cbn in Hslot. subst slot. cbn. split; [by rewrite IH1|].
    intros [|i]; cbn; auto.
Qed.

(** What the arrivals do to the slots: a slot is either left as it was
    or filled by the answer to its query, recorded in the trace; the
    trace holds one [listInstances] event per slot filled. *)
Lemma arrivals_filled queries order :
  ∀ slots s slots' s' trace,
    arrivals provider order queries slots s = (inr slots', s', trace) ->
    length slots' = length slots
    ∧ (length trace + arrived slots = arrived slots')%nat
    ∧ Forall (fun ev => isListInstances ev = true) trace
    ∧ ∀ i,
        slots' !! i = slots !! i
        ∨ ∃ query (v : ListInstancesResponse),
            queries !! i = Some query
            ∧ slots' !! i = Some (Some v)
            ∧ Asked (listInstances query) (inr v) ∈ trace.
Proof.
  induction order as [|i order IH]; intros slots s slots' s' trace;
    cbn [arrivals].
  { intros [= <- <- <-]. repeat split; auto. }
  destruct (queries !! i) as [query|] eqn:Hquery; [|apply IH].
  destruct (slots !! i) as [[v0|]|] eqn:Hslot; [apply IH | | apply IH].
  destruct (answer provider (listInstances query) s) as [[e|v] s1];
    [discriminate|].
  match goal with
  | |- context [arrivals ?p ?o ?q ?sl ?st] =>
      destruct (arrivals p o q sl st) as [[result s2] t] eqn:Hrest
  end.
  intros [= -> <- <-].
  destruct (IH _ _ _ _ _ Hrest) as (Hlen & Hcount & Hkinds & Hslots).
  rewrite length_insert in Hlen. rewrite (arrived_insert _ _ _ Hslot) in Hcount.
  split; [assumption|]. split; [cbn; lia|].
  split; [by constructor|].
  intros j. destruct (decide (i = j)) as [<-|Hne].
  - right. exists query.
    destruct (Hslots i) as [Hsame|(query' & v' & Hq' & Hv' & Hin)].
    + exists v. split; [assumption|].
      split; [|set_solver].
      etrans; [exact Hsame|].
      apply list_lookup_insert_eq. by eapply lookup_lt_Some.
    + rewrite Hquery in Hq'. injection Hq' as <-.
      exists v'. split; [assumption|]. split; [assumption | set_solver].
  - destruct (Hslots j) as [Hsame|(query' & v' & Hq' & Hv' & Hin)].
    + left. etrans; [exact Hsame|]. by apply list_lookup_insert_ne.
    + right. exists query', v'. split; [assumption|].
      split; [assumption | set_solver].
Qed.

End Arrivals.

Section ListingResults.

Context {St : Type} (provider : Provider St).

Lemma lookup_repeat {A : Type} (x : A) n i :
  (i < n)%nat -> List.repeat x n !! i = Some x.
Proof.
  revert i. induction n as [|n IH]; intros [|i] Hi; cbn; try lia; auto.
  apply IH. lia.
Qed.

(** X11. When the zone list has [items], a returned [listServers] has
    sent, after the zone query, exactly one [listInstances] request per
    zone, each for that zone with the filter [labels.outline=true], in
    whatever order the responses arrived; the servers returned are those
    of the responses taken in zone order, one per listed instance, each
    with the suffix of the instance's zone URL as its zone id and with a
    completion that is already fulfilled. *)
Theorem listServers_one_request_per_zone
    (this : GcpAccount) (projectId : string) (order : list nat) (s : St)
    (response : ListZonesResponse) (s1 : St) (zones : list Zone)
    (servers : list GcpServer) (s' : St) (trace : list FacadeEvent) :
  answer provider (core (listZones projectId)) s = (inr response, s1) ->
  zones_items response = Some zones ->
  perform provider order (listServers this projectId) s
  = (Returned servers, s', trace) ->
  ∃ responses instancesTrace,
    trace = Asked (core (listZones projectId)) (inr response) :: instancesTrace
    ∧ length instancesTrace = length zones
    ∧ Forall (fun ev => isListInstances ev = true) instancesTrace
    ∧ Forall2
        (fun zone answered =>
           Asked (listInstances (zoneQuery projectId zone)) (inr answered)
           ∈ instancesTrace)
        zones responses
    ∧ servers = listedServers this projectId responses
    ∧ Forall
        (fun server =>
           ∀ (Cl : Type) (env : Env Cl) schedule (c : Cl),
             settle env schedule (first (server_completion server))
               (second (server_completion server)) c
             = (Fulfilled, c, []))
        servers.
Proof.
  intros Hzones Hitems. unfold listServers. cbn [perform].
  rewrite Hzones, Hitems. cbn [perform].
  fold (zoneQuery projectId).
  destruct (arrivals provider order _ _ s1) as [[[e|slots] s2] t1] eqn:Harrive;
    [discriminate|].
  destruct (mapM (fun slot => slot) slots) as [responses|] eqn:Hall;
    [|discriminate].
  cbn [perform]. intros [= <- <- <-].
  destruct (arrivals_filled _ _ _ _ _ _ _ _ Harrive)
    as (Hlen & Hcount & Hkinds & Hslots).
  destruct (arrived_all _ _ Hall) as [Harrived Hlookup].
  rewrite arrived_repeat, Harrived in Hcount.
  rewrite repeat_length, length_map in Hlen.
  pose proof (Forall2_length _ _ _ (proj1 (mapM_Some _ _ _) Hall)) as Hsame.
  exists responses, t1. rewrite app_nil_r.
  split; [reflexivity|]. split; [lia|]. split; [assumption|].
  split; [|split].
  - apply Forall2_same_length_lookup_2; [lia|].
    intros i zone answered Hzone Hanswered.
    destruct (Hslots i) as [Hsame'|(query & v & Hquery & Hv & Hin)].
    + exfalso. rewrite Hlookup, Hanswered in Hsame'.
      assert (Hnone : List.repeat (None : option ListInstancesResponse)
                        (length (List.map (zoneQuery projectId) zones))
                      !! i = Some None).
      { apply lookup_repeat. rewrite length_map. by eapply lookup_lt_Some. }
      rewrite Hnone in Hsame'. discriminate.
    + change (List.map (zoneQuery projectId) zones)
        with (zoneQuery projectId <$> zones) in Hquery.
      rewrite list_lookup_fmap, Hzone in Hquery. injection Hquery as <-.
      rewrite Hlookup, Hanswered in Hv. by injection Hv as <-.
  - reflexivity.
  - apply Forall_forall. intros server Hserver Cl env schedule c.
    apply list_elem_of_In, in_flat_map in Hserver
      as (answered & _ & Hserver).
    apply in_map_iff in Hserver as (instance & <- & _).
    destruct schedule; reflexivity.
Qed.

(** X12. [listOpenBillingAccounts] returns one account per open
    billing account of the response, in order, and nothing for a closed
    one: the id is what follows the last slash of the resource name and
    the name is the display name. Without accounts in the response the
    result is empty. *)
Theorem listOpenBillingAccounts_only_open
    (order : list nat) (s : St)
    (response : ListBillingAccountsResponse) (s1 : St) :
  answer provider listBillingAccounts s = (inr response, s1) ->
  ∃ accounts,
    perform provider order listOpenBillingAccounts s
    = (Returned accounts, s1, [Asked listBillingAccounts (inr response)])
    ∧ Forall2
        (fun entry account =>
           entry_open entry = true
           ∧ suffixAfterLastSlash (entry_name entry) (billing_id account)
           ∧ billing_name account = entry_displayName entry)
        (List.filter entry_open (default [] (billingAccounts response)))
        accounts.
Proof.
  intros Hlist. unfold listOpenBillingAccounts. cbn [perform].
  rewrite Hlist.
  assert (Hmap : ∀ entries,
    Forall2
      (fun entry account =>
         entry_open entry = true
         ∧ suffixAfterLastSlash (entry_name entry) (billing_id account)
         ∧ billing_name account = entry_displayName entry)
      (List.filter entry_open entries)
      (List.map
         (fun billingAccount =>
            {| billing_id :=
                 Js.substring
                   (Js.lastIndexOf "/" (entry_name billingAccount) + 1)
                   (entry_name billingAccount);
               billing_name := entry_displayName billingAccount |})
         (List.filter entry_open entries))).
  { intros entries. induction entries as [|entry entries IH]; cbn;
      [constructor|].
    destruct (entry_open entry) eqn:Hopen; [|assumption].
    cbn. constructor; [|assumption].
    split; [assumption|]. split; [|reflexivity].
    apply substring_lastIndexOf_slash. }
  destruct (billingAccounts response) as [[|first others]|]; cbn [perform];
    eexists; (split; [reflexivity|]); try constructor.
  apply Hmap.
Qed.

End ListingResults.

Lemma listServers_one_request_per_zone_witness :
  ∃ responses instancesTrace,
    (perform (listingProvider true) [1%nat; 0%nat]
       (listServers account0 "proj-1") tt).2
    = Asked (core (listZones "proj-1"))
        (inr {| zones_items :=
                  Some [ {| zone_name := "us-central1-a";
                            zone_region := "regions/us-central1";
                            zone_status := "UP" |};
                         {| zone_name := "us-central1-b";
                            zone_region := "regions/us-central1";
                            zone_status := "UP" |} ] |})
      :: instancesTrace
    ∧ length instancesTrace = 2%nat
    ∧ [ {| server_accountId := "account-1";
           server_locator := locator0;
           server_name := "outline-202125-479";
           server_completion := resolved |} ]
      = listedServers account0 "proj-1" responses.
Proof.
  destruct (listServers_one_request_per_zone (listingProvider true) account0
              "proj-1" [1%nat; 0%nat] tt _ _ _ _ _ _ eq_refl eq_refl eq_refl)
    as (responses & instancesTrace & Htrace & Hlength & _ & _ & Hservers & _).
  exists responses, instancesTrace.
  split; [exact Htrace|]. split; [exact Hlength | exact Hservers].
Defined.

Lemma listOpenBillingAccounts_only_open_witness :
  ∃ accounts,
    perform (listingProvider true) [] listOpenBillingAccounts tt
    = (Returned accounts, tt,
       [Asked listBillingAccounts
          (inr {| billingAccounts :=
                    Some [ {| entry_name := "billingAccounts/0A1B-2C3D";
                              entry_displayName := "Main";
                              entry_open := true |};
                           {| entry_name := "billingAccounts/FFFF-0000";
                              entry_displayName := "Old";
                              entry_open := false |} ] |})])
    ∧ Forall2
        (fun entry account =>
           entry_open entry = true
           ∧ suffixAfterLastSlash (entry_name entry) (billing_id account)
           ∧ billing_name account = entry_displayName entry)
        [ {| entry_name := "billingAccounts/0A1B-2C3D";
             entry_displayName := "Main";
             entry_open := true |} ]
        accounts.
Proof.
  exact (listOpenBillingAccounts_only_open (listingProvider true) [] tt _ _
           eq_refl).
Defined.

(* ================================================================= *)
(** * Properties of the metrics publisher *)

Section Publisher.

Context {Number St : Type} (world : @Collaborators Number St).
Variable isZero : Number -> bool.

Lemma execute_andThen {A B : Type} (job : Job A) (f : A -> Job B) m s :
  execute world (andThen job f) m s =
  match execute world job m s with
  | (inr a, m1, s1, t1) =>
      let '(o, m2, s2, t2) := execute world (f a) m1 s1 in
      (o, m2, s2, t1 ++ t2)
  | (inl e, m1, s1, t1) => (inl e, m1, s1, t1)
  end.
Proof.
  revert m s. induction job as [a|e|c k IH|k IH|m' k IH]; intros m s; cbn.
  - by destruct (execute world (f a) m s) as [[[o m2] s2] t2].
  - reflexivity.
  - destruct (serve world c s) as [r s1]. rewrite IH.
    destruct (execute world (k r) m s1) as [[[[e|a] m1] s2] t1];
      [reflexivity|].
    by destruct (execute world (f a) m1 s2) as [[[o m2] s3] t2].
  - apply IH.
  - apply IH.
Qed.

Lemma execute_tryCatch {A : Type} (body : Job A) handler m s :
  execute world (tryCatch body handler) m s =
  match execute world body m s with
  | (inr a, m1, s1, t1) => (inr a, m1, s1, t1)
  | (inl e, m1, s1, t1) =>
      let '(o, m2, s2, t2) := execute world (handler e) m1 s1 in
      (o, m2, s2, t1 ++ t2)
  end.
Proof.
  revert m s. induction body as [a|e|c k IH|k IH|m' k IH]; intros m s; cbn.
  - reflexivity.
  - by destruct (execute world (handler e) m s) as [[[o m2] s2] t2].
  - destruct (serve world c s) as [r s1]. rewrite IH.
    destruct (execute world (k r) m s1) as [[[[e|a] m1] s2] t1];
      [|reflexivity].
    by destruct (execute world (handler e) m1 s2) as [[[o m2] s3] t2].
  - apply IH.
  - apply IH.
Qed.

Lemma execute_perform (c : MetricsCall) m s :
  execute world (perform_ c) m s =
  let '(r, s1) := serve world c s in (r, m, s1, [Performed c r]).
Proof. cbn. by destruct (serve world c s) as [[e|v] s1]. Qed.

(** Every run of [reportServerUsageMetrics], by the answer of the
    clock and by whether any usage is left to report. *)
Lemma execute_reportServerUsageMetrics usage m s :
  execute world (reportServerUsageMetrics isZero usage) m s =
  match serve world clock_now s with
  | (inl e, s1) => (inl e, m, s1, [Performed clock_now (inl e)])
  | (inr now, s1) =>
      if Nat.eqb (length (reportServerUsageMetrics_userReports isZero usage)) 0
      then (inr tt, afterReport m now, s1, [Performed clock_now (inr now)])
      else
        let '(r, s2) :=
          serve world
            (collectServerUsageMetrics (hourlyReport isZero m now usage)) s1 in
        (r, afterReport m now, s2,
         [Performed clock_now (inr now);
          Performed
            (collectServerUsageMetrics (hourlyReport isZero m now usage)) r])
  end.
Proof.
  unfold reportServerUsageMetrics, perform_. cbn [andThen execute].
  destruct (serve world clock_now s) as [[e|now] s1]; cbn [andThen execute];
    [reflexivity|].
  fold (hourlyReport isZero m now usage). fold (afterReport m now).
  destruct (Nat.eqb _ 0); cbn [execute]; [reflexivity|].
  destruct (serve world _ s1) as [[e|v] s2]; reflexivity.
Qed.

Lemma userReports_filtered usage :
  Forall
    (fun userReport =>
       ∃ entry,
         entry ∈ usage
         ∧ countries userReport = [reportedCountry entry]
         ∧ bytesTransferred userReport = inboundBytes entry
         ∧ isZero (inboundBytes entry) = false
         ∧ (country entry ∉ SANCTIONED_COUNTRIES)
         ∧ (reportedCountry entry ≠ EmptyString)
         ∧ reportedCountry entry ∉ SANCTIONED_COUNTRIES)
    (reportServerUsageMetrics_userReports isZero usage).
Proof.
  induction usage as [|entry usage IH]; cbn; [constructor|].
  assert (Hmore :
    Forall
      (fun userReport =>
         ∃ entry0,
           entry0 ∈ entry :: usage
           ∧ countries userReport = [reportedCountry entry0]
           ∧ bytesTransferred userReport = inboundBytes entry0
           ∧ isZero (inboundBytes entry0) = false
           ∧ (country entry0 ∉ SANCTIONED_COUNTRIES)
           ∧ (reportedCountry entry0 ≠ EmptyString)
           ∧ reportedCountry entry0 ∉ SANCTIONED_COUNTRIES)
      (reportServerUsageMetrics_userReports isZero usage)).
  { eapply Forall_impl; [exact IH|]. intros userReport (entry0 & Hin & H).
    exists entry0. split; [set_solver | exact H]. }
  destruct (isZero (inboundBytes entry)) eqn:Hzero; [assumption|].
  unfold isSanctionedCountry.
  destruct (decide (country entry ∈ SANCTIONED_COUNTRIES)) as [Hs|Hs].
  { by rewrite bool_decide_eq_true_2. }
  rewrite bool_decide_eq_false_2 by assumption.
  constructor; [|assumption].
  exists entry. fold (reportedCountry entry). cbn.
  split; [set_solver|]. repeat split; auto.
  - unfold reportedCountry.
    destruct (String.eqb_spec (country entry) EmptyString); congruence.
  - unfold reportedCountry.
    destruct (String.eqb_spec (country entry) EmptyString); [|assumption].
    unfold SANCTIONED_COUNTRIES. set_solver.
Qed.

(** X13. Whatever [reportServerUsageMetrics] hands to the collector
    holds at least one user report, and every user report in it stems
    from a usage entry with traffic (bytes not zero) outside the
    sanctioned countries CU, KP and SY, carries the bytes of that entry
    and exactly one country: the entry's, or [ZZ] when the entry has
    none. *)
Theorem reported_usage_is_filtered
    (usage : list CountryUsage) (m : Memory) (s : St)
    (result : Js.Error + unit) (m' : Memory) (s' : St)
    (trace : list MetricsEvent) (ev : MetricsEvent)
    (report : HourlyServerMetricsReportJson) :
  execute world (reportServerUsageMetrics isZero usage) m s
  = (result, m', s', trace) ->
  ev ∈ trace ->
  performedCall ev = collectServerUsageMetrics report ->
  userReports report ≠ []
  ∧ Forall
      (fun userReport =>
         ∃ entry,
           entry ∈ usage
           ∧ countries userReport = [reportedCountry entry]
           ∧ bytesTransferred userReport = inboundBytes entry
           ∧ isZero (inboundBytes entry) = false
           ∧ (country entry ∉ SANCTIONED_COUNTRIES)
           ∧ (reportedCountry entry ≠ EmptyString)
           ∧ reportedCountry entry ∉ SANCTIONED_COUNTRIES)
      (userReports report).
Proof.
  rewrite execute_reportServerUsageMetrics.
  destruct (serve world clock_now s) as [[e|now] s1].
  { intros [= <- <- <- <-] Hin Hcall.
    apply list_elem_of_singleton in Hin as ->. discriminate. }
  destruct (Nat.eqb _ 0) eqn:Hempty.
  { intros [= <- <- <- <-] Hin Hcall.
    apply list_elem_of_singleton in Hin as ->. discriminate. }
  destruct (serve world _ s1) as [r s2]. intros [= <- <- <- <-] Hin Hcall.
  apply elem_of_cons in Hin as [->|Hin]; [discriminate|].
  apply list_elem_of_singleton in Hin as ->. cbn in Hcall.
  injection Hcall as <-. cbn. split; [|apply userReports_filtered].
  intros Hnil. rewrite Hnil in Hempty. discriminate.
Qed.

(** X14. After [reportServerUsageMetrics] has read the clock, the
    start of the next report is that reading, whether the report was
    handed over, rejected by the collector or not sent at all; a report
    handed over spans from the previous start to the reading; and when
    no usage is left to report nothing is sent. Consecutive reports
    therefore cover adjoining spans. *)
Theorem reportServerUsageMetrics_window
    (usage : list CountryUsage) (m : Memory) (s : St) (now : Number) (s1 : St)
    (result : Js.Error + unit) (m' : Memory) (s' : St)
    (trace : list MetricsEvent) :
  serve world clock_now s = (inr now, s1) ->
  execute world (reportServerUsageMetrics isZero usage) m s
  = (result, m', s', trace) ->
  reportStartTimestampMs m' = now
  ∧ serverConfigData m' = serverConfigData m
  ∧ (∀ ev report,
        ev ∈ trace ->
        performedCall ev = collectServerUsageMetrics report ->
        startUtcMs report = reportStartTimestampMs m
        ∧ endUtcMs report = now
        ∧ hourly_serverId report = serverId (serverConfigData m))
  ∧ (reportServerUsageMetrics_userReports isZero usage = [] ->
     result = inr tt ∧ trace = [Performed clock_now (inr now)]).
Proof.
  intros Hclock. rewrite execute_reportServerUsageMetrics, Hclock.
  destruct (reportServerUsageMetrics_userReports isZero usage)
    as [|userReport others] eqn:Hreports; cbn [length Nat.eqb].
  - intros [= <- <- <- <-].
    split; [reflexivity|]. split; [reflexivity|]. split; [|by split].
    intros ev report Hin Hcall.
    apply list_elem_of_singleton in Hin as ->. discriminate.
  - destruct (serve world _ s1) as [r s2]. intros [= <- <- <- <-].
    split; [reflexivity|]. split; [reflexivity|]. split; [|discriminate].
    intros ev report Hin Hcall.
    apply elem_of_cons in Hin as [->|Hin]; [discriminate|].
    apply list_elem_of_singleton in Hin as ->. cbn in Hcall.
    injection Hcall as <-. repeat split.
Qed.

End Publisher.

Section Callbacks.

Context {Number St : Type} (world : @Collaborators Number St).
Variable isZero : Number -> bool.

(** X15. When sharing is enabled and the collector rejects the hourly
    report, the hourly callback catches the rejection and logs it, and
    ends the way the logging ends; it does not reset the usage metrics,
    but the start of the next report has already moved to the end of
    the rejected one. *)
Theorem hourlyCallback_failed_post
    (m : Memory) (s : St) (usage : list CountryUsage) (s1 : St)
    (now : Number) (s2 : St) (e : Js.Error) (s3 : St)
    (logged : Js.Error + unit) (s4 : St) :
  metricsEnabled (serverConfigData m) = Some true ->
  serve world usageMetrics_getCountryUsage s = (inr usage, s1) ->
  serve world clock_now s1 = (inr now, s2) ->
  reportServerUsageMetrics_userReports isZero usage ≠ [] ->
  serve world (collectServerUsageMetrics (hourlyReport isZero m now usage)) s2
  = (inl e, s3) ->
  serve world
    (logging_error
       ("Failed to report server usage metrics: " +:+ errorString e)) s3
  = (logged, s4) ->
  execute world (hourlyCallback isZero) m s
  = (logged, afterReport m now, s4,
     [ Performed usageMetrics_getCountryUsage (inr usage);
       Performed clock_now (inr now);
       Performed (collectServerUsageMetrics (hourlyReport isZero m now usage))
         (inl e);
       Performed
         (logging_error
            ("Failed to report server usage metrics: " +:+ errorString e))
         logged ]).
Proof.
  intros Hsharing Husage Hclock Hreports Hcollect Hlog.
  unfold hourlyCallback, isSharingEnabled. cbn [andThen execute].
  rewrite Hsharing. cbn [from_option Datatypes.id negb].
  rewrite execute_tryCatch.
  change (andThen (perform_ usageMetrics_getCountryUsage) ?f)
    with (Request usageMetrics_getCountryUsage
            (fun r => andThen (match r with
                               | inl e0 => Raise e0
                               | inr v => Finish v
                               end) f)).
  cbn [execute]. rewrite Husage. cbn [andThen].
  rewrite execute_andThen, execute_reportServerUsageMetrics, Hclock.
  destruct (reportServerUsageMetrics_userReports isZero usage)
    as [|userReport others] eqn:Hlist; [contradiction|].
  cbn [length Nat.eqb]. rewrite Hcollect.
  unfold perform_. cbn [execute]. rewrite Hlog.
  by destruct logged.
Qed.

(** X16. Switching sharing on or off stores the switch in the
    configuration data and writes the configuration, and the switch is
    what [isSharingEnabled] then answers. With sharing switched off, or
    never set, the hourly and the daily callback perform no request and
    change nothing. *)
Theorem sharing_switch (m : Memory) (s : St) (sharing : bool) (s1 : St) :
  serve world (serverConfig_write (serverConfigData (withSharing m sharing))) s
  = (inr tt, s1) ->
  execute world
    (andThen (if sharing then startSharing else stopSharing)
       (fun _ => isSharingEnabled)) m s
  = (inr sharing, withSharing m sharing, s1,
     [Performed
        (serverConfig_write (serverConfigData (withSharing m sharing)))
        (inr tt)])
  ∧ (sharing = false ->
     execute world (andThen stopSharing (fun _ => hourlyCallback isZero)) m s
     = (inr tt, withSharing m false, s1,
        [Performed
           (serverConfig_write (serverConfigData (withSharing m false)))
           (inr tt)])
     ∧ execute world (andThen stopSharing (fun _ => dailyCallback)) m s
       = (inr tt, withSharing m false, s1,
          [Performed
             (serverConfig_write (serverConfigData (withSharing m false)))
             (inr tt)]))
  ∧ (metricsEnabled (serverConfigData m) = None ->
     execute world (hourlyCallback isZero) m s = (inr tt, m, s, [])
     ∧ execute world dailyCallback m s = (inr tt, m, s, [])).
Proof.
  intros Hwrite. split; [|split].
  - destruct sharing; unfold startSharing, stopSharing, isSharingEnabled,
      perform_; cbn [andThen execute];
      fold (withSharing m true); fold (withSharing m false);
      rewrite Hwrite; reflexivity.
  - intros ->.
    unfold stopSharing, hourlyCallback, dailyCallback, isSharingEnabled,
      perform_; cbn [andThen execute]; fold (withSharing m false);
      rewrite Hwrite; split; reflexivity.
  - intros Hnever.
    unfold hourlyCallback, dailyCallback, isSharingEnabled;
      cbn [andThen execute]; rewrite Hnever; split; reflexivity.
Qed.

End Callbacks.

Lemma reported_usage_is_filtered_witness :
  userReports (hourlyReport (Z.eqb 0) (simMemory (Some true)) MS_PER_HOUR
                 simUsage)
  = [ {| countries := ["ZZ"]; bytesTransferred := 2048 |};
      {| countries := ["FR"]; bytesTransferred := 512 |} ]
  ∧ userReports (hourlyReport (Z.eqb 0) (simMemory (Some true)) MS_PER_HOUR
                   simUsage) ≠ [].
Proof.
  split; [reflexivity|].
  refine (proj1
            (reported_usage_is_filtered (simWorld true simUsage) (Z.eqb 0)
               simUsage (simMemory (Some true)) 0 _ _ _ _
               (Performed
                  (collectServerUsageMetrics
                     (hourlyReport (Z.eqb 0) (simMemory (Some true))
                        MS_PER_HOUR simUsage))
                  (inr tt))
               _ eq_refl _ eq_refl)).
  apply elem_of_cons. right. apply elem_of_cons. left. reflexivity.
Defined.

Lemma reportServerUsageMetrics_window_witness :
  reportStartTimestampMs
    (execute (simWorld false simUsage)
       (reportServerUsageMetrics (Z.eqb 0) simUsage) (simMemory (Some true))
       0).1.1.2
  = MS_PER_HOUR.
Proof.
  exact (proj1
           (reportServerUsageMetrics_window (simWorld false simUsage)
              (Z.eqb 0) simUsage (simMemory (Some true)) 0 _ _ _ _ _ _
              eq_refl eq_refl)).
Defined.

Lemma hourlyCallback_failed_post_witness :
  execute (simWorld false simUsage) (hourlyCallback (Z.eqb 0))
    (simMemory (Some true)) 0
  = (inr tt, afterReport (simMemory (Some true)) MS_PER_HOUR, MS_PER_HOUR,
     [ Performed usageMetrics_getCountryUsage (inr simUsage);
       Performed clock_now (inr MS_PER_HOUR);
       Performed
         (collectServerUsageMetrics
            (hourlyReport (Z.eqb 0) (simMemory (Some true)) MS_PER_HOUR
               simUsage))
         (inl (Js.RequestFailed
                 "Failed to post to metrics server: Error: Got status 500"));
       Performed
         (logging_error
            "Failed to report server usage metrics: Error: Failed to post to metrics server: Error: Got status 500")
         (inr tt) ]).
Proof.
  refine (hourlyCallback_failed_post (simWorld false simUsage) (Z.eqb 0)
            (simMemory (Some true)) 0 simUsage _ _ _ _ _ _ _
            eq_refl eq_refl eq_refl _ eq_refl eq_refl).
  discriminate.
Defined.

Lemma sharing_switch_witness :
  execute (simWorld true simUsage)
    (andThen startSharing (fun _ => isSharingEnabled)) (simMemory None) 0
  = (inr true, withSharing (simMemory None) true, 0,
     [Performed
        (serverConfig_write
           (serverConfigData (withSharing (simMemory None) true)))
        (inr tt)]).
Proof.
  exact (proj1 (sharing_switch (simWorld true simUsage) (Z.eqb 0)
                  (simMemory None) 0 true _ eq_refl)).
Defined.

Section Posting.

Context {Number St : Type} (world : @Collaborators Number St).
Variable stringifyOptions : RequestOptions -> string.

(** X17. [postMetrics] sends one POST request with the report as body
    to the service URL followed by the path. It ends normally exactly
    when the response is ok; a response that is not ok and a rejected
    request both end in an [Error] whose message is [Failed to post to
    metrics server: ] followed by the cause, which for a response that
    is not ok is [Error: Got status] with the status. *)
Theorem postMetrics_failures_wrapped
    (serviceUrl urlPath reportJson : string) (m : Memory) (s s1 : St)
    (answered : Js.Error + HttpResponse) (s2 : St) :
  serve world
    (logging_debug
       ("Posting metrics to " +:+ (serviceUrl +:+ urlPath)
        +:+ " with options " +:+ stringifyOptions (postOptions reportJson))) s
  = (inr tt, s1) ->
  serve world
    (requestFollowRedirectsWithSameMethodAndBody (serviceUrl +:+ urlPath)
       (postOptions reportJson)) s1
  = (answered, s2) ->
  execute world
    (postMetrics (Number := Number) stringifyOptions serviceUrl urlPath
       reportJson) m s
  = (match answered with
     | inr response =>
         if response_ok response then inr tt
         else
           inl (Js.RequestFailed
                  ("Failed to post to metrics server: Error: Got status "
                   +:+ Js.numberToString (response_status response)))
     | inl e =>
         inl (Js.RequestFailed
                ("Failed to post to metrics server: " +:+ errorString e))
     end, m, s2,
     [ Performed
         (logging_debug
            ("Posting metrics to " +:+ (serviceUrl +:+ urlPath)
             +:+ " with options "
             +:+ stringifyOptions (postOptions reportJson)))
         (inr tt);
       Performed
         (requestFollowRedirectsWithSameMethodAndBody (serviceUrl +:+ urlPath)
            (postOptions reportJson))
         answered ]).
Proof.
  intros Hdebug Hrequest. unfold postMetrics, perform_.
  fold (postOptions reportJson). cbn [andThen tryCatch execute].
  rewrite Hdebug. cbn [andThen tryCatch execute]. rewrite Hrequest.
  destruct answered as [e|response]; cbn [andThen tryCatch execute];
    [reflexivity|].
  destruct (response_ok response); reflexivity.
Qed.

End Posting.

Lemma postMetrics_failures_wrapped_witness :
  execute (simWorld false simUsage)
    (postMetrics (Number := Z) (fun _ => "{}") "https://metrics.example"
       "/connections" "{}") (simMemory (Some true)) 0
  = (inl (Js.RequestFailed
            "Failed to post to metrics server: Error: Got status 500"),
     simMemory (Some true), 0,
     [ Performed
         (logging_debug
            "Posting metrics to https://metrics.example/connections with options {}")
         (inr tt);
       Performed
         (requestFollowRedirectsWithSameMethodAndBody
            "https://metrics.example/connections" (postOptions "{}"))
         (inr {| response_ok := false; response_status := 500 |}) ]).
Proof.
  exact (postMetrics_failures_wrapped (simWorld false simUsage)
           (fun _ => "{}") "https://metrics.example" "/connections" "{}"
           (simMemory (Some true)) 0 _ _ _ eq_refl eq_refl).
Defined.

(** ** Health of a project whose services are listed *)

Section HealthOutcomes.

Context {St : Type} (env : Env St).

(** The loop over the required services sends no request, whatever the
    response holds. *)
Lemma isProjectHealthy_required_silent
    (response : ListEnabledServicesResponse) (required : list string)
    (s : St) :
  ∃ outcome, run env (isProjectHealthy_required response required) s
             = (outcome, s, []).
Proof.
  induction required as [|service required IH]; cbn [isProjectHealthy_required].
  - eexists. reflexivity.
  - destruct (services response) as [enabled|]; [|eexists; reflexivity].
    destruct (find_service service enabled) as [e|[found|]];
      [eexists; reflexivity | exact IH | eexists; reflexivity].
Qed.

(** X18. With billing enabled and an enabled-services response that
    has its [services] list, every service of it carrying a [config],
    [isProjectHealthy] returns after the two queries and nothing else;
    the answer is [false] exactly when a required service is missing
    from the list (an empty list included), and [true] when every
    required service is listed. *)
Theorem isProjectHealthy_listed
    (s : St) (projectId : string)
    (info : ProjectBillingInfo) (s1 : St)
    (response : ListEnabledServicesResponse) (s2 : St)
    (enabled : list Service) :
  request env (getProjectBillingInfo projectId) s = (inr info, s1) ->
  billingEnabled info = true ->
  request env (listEnabledServices projectId) s1 = (inr response, s2) ->
  services response = Some enabled ->
  configured enabled ->
  ∃ healthy,
    run env (isProjectHealthy projectId) s
    = (Returned healthy, s2,
       [ Called (getProjectBillingInfo projectId) (inr info);
         Called (listEnabledServices projectId) (inr response) ])
    ∧ (healthy = false
       <-> ∃ service,
             service ∈ REQUIRED_GCP_SERVICES
             ∧ service ∉ enabledNames enabled)
    ∧ (REQUIRED_GCP_SERVICES ⊆ enabledNames enabled -> healthy = true).
Proof.
  intros Hbilling Henabled Hservices Hlist Hall.
  destruct (isProjectHealthy_required_listed env response enabled
              REQUIRED_GCP_SERVICES s2 Hlist Hall)
    as (healthy & Hrun & Hiff).
  exists healthy. split; [|split; [exact Hiff|]].
  - unfold isProjectHealthy.
    cbn -[isProjectHealthy_required REQUIRED_GCP_SERVICES].
    rewrite Hbilling.
    cbn -[isProjectHealthy_required REQUIRED_GCP_SERVICES].
    rewrite Henabled.
    cbn -[isProjectHealthy_required REQUIRED_GCP_SERVICES].
    rewrite Hservices.
    cbn -[isProjectHealthy_required REQUIRED_GCP_SERVICES].
    rewrite Hrun. reflexivity.
  - intros Hsub. destruct healthy; [reflexivity|].
    destruct (proj1 Hiff eq_refl) as (service & Hreq & Hmiss). set_solver.
Qed.

(** X19. When the billing query answers that billing is not enabled,
    [isProjectHealthy] returns [false] right after it: the enabled
    services are not queried. *)
Theorem isProjectHealthy_billing_disabled
    (s : St) (projectId : string) (info : ProjectBillingInfo) (s1 : St) :
  request env (getProjectBillingInfo projectId) s = (inr info, s1) ->
  billingEnabled info = false ->
  run env (isProjectHealthy projectId) s
  = (Returned false, s1,
     [Called (getProjectBillingInfo projectId) (inr info)]).
Proof.
  intros Hbilling Hdisabled. unfold isProjectHealthy.
  cbn -[isProjectHealthy_required REQUIRED_GCP_SERVICES].
  rewrite Hbilling.
  cbn -[isProjectHealthy_required REQUIRED_GCP_SERVICES].
  rewrite Hdisabled. reflexivity.
Qed.

(** X20. Whatever the provider answers, and however the run ends, a run
    of [isProjectHealthy] sends no request that creates or changes a
    resource: its requests are the billing query, followed at most by
    the enabled-services query. *)
Theorem isProjectHealthy_read_only (s : St) (projectId : string) :
  readOnly (run env (isProjectHealthy projectId) s).2
  ∧ ∃ rest,
      List.map eventCall (run env (isProjectHealthy projectId) s).2
      = Some (getProjectBillingInfo projectId) :: rest
      ∧ (rest = [] ∨ rest = [Some (listEnabledServices projectId)]).
Proof.
  unfold isProjectHealthy, readOnly.
  cbn -[isProjectHealthy_required REQUIRED_GCP_SERVICES].
  destruct (request env (getProjectBillingInfo projectId) s)
    as [[e|info] s1]; cbn -[isProjectHealthy_required REQUIRED_GCP_SERVICES].
  { split; [reflexivity|]. exists []. auto. }
  destruct (billingEnabled info);
    cbn -[isProjectHealthy_required REQUIRED_GCP_SERVICES].
  2: { split; [reflexivity|]. exists []. auto. }
  destruct (request env (listEnabledServices projectId) s1)
    as [[e|response] s2];
    cbn -[isProjectHealthy_required REQUIRED_GCP_SERVICES].
  { split; [reflexivity|]. eexists. split; [reflexivity|]. auto. }
  destruct (isProjectHealthy_required_silent response REQUIRED_GCP_SERVICES s2)
    as [outcome ->].
  split; [reflexivity|]. eexists. split; [reflexivity|]. auto.
Qed.

End HealthOutcomes.

Lemma isProjectHealthy_listed_witness :
  ∃ healthy,
    run (simEnv calmScenario) (isProjectHealthy "proj-1") freshCloud
    = (Returned healthy, freshCloud,
       [ Called (getProjectBillingInfo "proj-1")
           (inr {| billingEnabled := true |});
         Called (listEnabledServices "proj-1")
           (inr {| services :=
                     Some
                       [ {| service_config :=
                              Some {| config_name := "compute.googleapis.com" |} |};
                         {| service_config :=
                              Some {| config_name := "oslogin.googleapis.com" |} |}
                       ] |}) ])
    ∧ (healthy = false
       <-> ∃ service,
             service ∈ REQUIRED_GCP_SERVICES
             ∧ service ∉ ["compute.googleapis.com"; "oslogin.googleapis.com"])
    ∧ (REQUIRED_GCP_SERVICES
         ⊆ ["compute.googleapis.com"; "oslogin.googleapis.com"] ->
       healthy = true).
Proof.
  refine (isProjectHealthy_listed (simEnv calmScenario) freshCloud "proj-1"
            _ _ _ _ _ eq_refl eq_refl eq_refl eq_refl _).
  repeat constructor; eexists; reflexivity.
Defined.

Lemma isProjectHealthy_billing_disabled_witness :
  run (simEnv enablementFailsScenario) (isProjectHealthy "proj-1") freshCloud
  = (Returned false, freshCloud,
     [Called (getProjectBillingInfo "proj-1")
        (inr {| billingEnabled := false |})]).
Proof.
  exact (isProjectHealthy_billing_disabled (simEnv enablementFailsScenario)
           freshCloud "proj-1" _ _ eq_refl eq_refl).
Defined.
